(** * The conversation list of the chat page (src/app/chat/page.tsx)

    A shallow embedding of [ChatListPage]: the reconciler
    [createCombinedChatList], the search filter [filteredChats] and the
    per-row selection rules of the rendered list.

    JavaScript strings are modelled by [string], one character per
    UTF-16 code unit, for code units below 256: on those the default
    array sort, [join], [includes] and [toLowerCase] are exactly the
    functions below.  A JavaScript object used as a dictionary is a
    [gmap string _]; an optional field is an [option].

    [chatMatches], [renderChat] and [ChatListPage] give the values the
    callbacks and the page compute on the evaluations that raise no
    exception; [chatMatchesE], [renderChatE] and [ChatListPageE] are the
    same code with its two exceptions: a property read that falls
    through to [Object.prototype], and the formatting of a time outside
    the range of [Date]. *)

From Stdlib Require Import ZArith Ascii String List Bool Lia DecimalString.
From stdpp Require Import base option list strings gmap.

Local Open Scope Z_scope.

(** ** Strings *)

Module Js.

(** A non-empty string is truthy, the empty one is falsy. *)
Definition truthy (s : string) : bool :=
  match s with
  | EmptyString => false
  | String _ _ => true
  end.

(** [a || b] on an optional string [a] and a string [b]. *)
Definition orElse (a : option string) (b : string) : string :=
  match a with
  | Some s => if truthy s then s else b
  | None => b
  end.

(** Lower-casing of one code unit below 256: A-Z and the Latin-1 capital
    letters U+00C0..U+00DE (the multiplication sign U+00D7 apart) move up
    by 32, every other unit is kept. *)
Definition lowerUnit (c : ascii) : ascii :=
  let n := N_of_ascii c in
  if (((65 <=? n) && (n <=? 90))
      || ((192 <=? n) && (n <=? 222) && negb (n =? 215)))%N
  then ascii_of_N (n + 32)
  else c.

Fixpoint toLowerCase (s : string) : string :=
  match s with
  | EmptyString => EmptyString
  | String c s' => String (lowerUnit c) (toLowerCase s')
  end.

(** [s.startsWith(q)] *)
Fixpoint startsWith (s q : string) : bool :=
  match q, s with
  | EmptyString, _ => true
  | String _ _, EmptyString => false
  | String b q', String a s' => Ascii.eqb a b && startsWith s' q'
  end.

(** [s.includes(q)]: [q] occurs in [s] at some position. *)
Fixpoint includes (s q : string) : bool :=
  startsWith s q
  || match s with
     | EmptyString => false
     | String _ s' => includes s' q
     end.

(** [arr.includes(x)] on an array of strings. *)
Definition arrIncludes (arr : list string) (x : string) : bool :=
  existsb (String.eqb x) arr.

(** [arr.sort()] with the default comparator: ascending by code units,
    stable. *)
Fixpoint insertSorted (x : string) (l : list string) : list string :=
  match l with
  | [] => [x]
  | y :: l' => if String.leb x y then x :: l else y :: insertSorted x l'
  end.

Definition sort (arr : list string) : list string :=
  foldr insertSorted [] arr.

(** [arr.join(sep)] *)
Fixpoint join (sep : string) (arr : list string) : string :=
  match arr with
  | [] => EmptyString
  | [x] => x
  | x :: rest => x +:+ sep +:+ join sep rest
  end.

(** [String(n)] for an integer [n]. *)
Definition numberToString (n : Z) : string :=
  NilZero.string_of_int (Z.to_int n).

End Js.

(** ** Data model *)

Module UserProfile.
Record t := mk
  { userId : string;
    displayName : string;
    avatar : option string }.
End UserProfile.

Module PairedUser.
Record t := mk
  { userId : string;
    displayName : string;
    localDisplayName : option string;
    avatar : option string }.
End PairedUser.

Module Details.
Record t := mk
  { displayName : string;
    avatar : option string }.
#[global] Instance eq_dec : EqDecision t.
Proof. solve_decision. Defined.
End Details.

Module Message.
Record t := mk
  { text : string;
    timestamp : Z;
    deletedForEveryone : bool }.
#[global] Instance eq_dec : EqDecision t.
Proof. solve_decision. Defined.
End Message.

Module Chat.
Record t := mk
  { chatId : string;
    participants : list string;
    participantDetails : gmap string Details.t;
    lastMessage : option Message.t;
    unreadCount : Z;
    isPending : bool }.
#[global] Instance eq_dec : EqDecision t.
Proof. solve_decision. Defined.
End Chat.

(** ** The reconciler *)

(** The [chats.find] of the loop body: the first conversation that has
    both the contact and the local user among its participants. *)
Definition existingChat (selfId userId : string) (chats : list Chat.t)
  : option Chat.t :=
  List.find
    (fun chat =>
       Js.arrIncludes (Chat.participants chat) userId
       && Js.arrIncludes (Chat.participants chat) selfId)
    chats.

Definition sortedParticipantIds (selfId userId : string) : list string :=
  Js.sort [selfId; userId].

(** The placeholder built for a paired user without a conversation. *)
Definition newChat (userProfile : UserProfile.t) (user : PairedUser.t)
  : Chat.t :=
  let selfId := UserProfile.userId userProfile in
  let userId := PairedUser.userId user in
  let ids := sortedParticipantIds selfId userId in
  {| Chat.chatId := Js.join "_" ids;
     Chat.participants := ids;
     Chat.participantDetails :=
       <[ userId :=
            Details.mk
              (Js.orElse (PairedUser.localDisplayName user)
                         (PairedUser.displayName user))
              (PairedUser.avatar user) ]>
       (<[ selfId :=
             Details.mk (UserProfile.displayName userProfile)
                        (UserProfile.avatar userProfile) ]> ∅);
     Chat.lastMessage := None;
     Chat.unreadCount := 0;
     Chat.isPending := true |}.

(** One turn of [pairedUsers.forEach]: [chatList] is the array being
    built, [chats] the array the loop searches. *)
Definition addPairedUser (userProfile : UserProfile.t) (chats : list Chat.t)
    (chatList : list Chat.t) (user : PairedUser.t) : list Chat.t :=
  match existingChat (UserProfile.userId userProfile)
                     (PairedUser.userId user) chats with
  | Some _ => chatList
  | None => chatList ++ [newChat userProfile user]
  end.

Definition createCombinedChatList (userProfile : option UserProfile.t)
    (chats : list Chat.t) (pairedUsers : list PairedUser.t) : list Chat.t :=
  match userProfile with
  | None => []
  | Some up => fold_left (addPairedUser up chats) pairedUsers chats
  end.

(** ** The search filter *)

(** [chat.participants.find(id => id !== userProfile.userId)] *)
Definition otherParticipantId (selfId : string) (chat : Chat.t)
  : option string :=
  List.find (fun id => negb (String.eqb id selfId)) (Chat.participants chat).

(** The callback of [allChats.filter]. *)
Definition chatMatches (userProfile : option UserProfile.t)
    (searchQuery : string) (chat : Chat.t) : bool :=
  match userProfile with
  | None => false
  | Some up =>
    match otherParticipantId (UserProfile.userId up) chat with
    | None => false
    | Some other =>
      if Js.truthy other then
        match Chat.participantDetails chat !! other with
        | None => false
        | Some otherParticipant =>
          Js.includes (Js.toLowerCase (Details.displayName otherParticipant))
                      (Js.toLowerCase searchQuery)
        end
      else false
    end
  end.

Definition filteredChats (userProfile : option UserProfile.t)
    (chats : list Chat.t) (pairedUsers : list PairedUser.t)
    (searchQuery : string) : list Chat.t :=
  List.filter (chatMatches userProfile searchQuery)
              (createCombinedChatList userProfile chats pairedUsers).

(** ** The rendered rows *)

(** [pairedUser?.localDisplayName || pairedUser?.displayName
     || otherParticipant.displayName] *)
Definition resolveDisplayName (pairedUsers : list PairedUser.t)
    (otherId : string) (otherParticipant : Details.t) : string :=
  let pairedUser :=
    List.find (fun user => String.eqb (PairedUser.userId user) otherId)
              pairedUsers in
  Js.orElse (pairedUser ≫= PairedUser.localDisplayName)
    (Js.orElse (PairedUser.displayName <$> pairedUser)
               (Details.displayName otherParticipant)).

(** The unread badge: [None] when the span is not rendered, otherwise
    its text. *)
Definition unreadBadge (unreadCount : Z) : option string :=
  if unreadCount =? 0 then None
  else Some (if 9 <? unreadCount then "9+"
             else Js.numberToString unreadCount).

(** The line under the name. *)
Definition subtitle (chat : Chat.t) : string :=
  if Chat.isPending chat then "Start a conversation"
  else match Chat.lastMessage chat with
       | Some m =>
         if Message.deletedForEveryone m then "This message was deleted"
         else Message.text m
       | None => "No messages yet"
       end.

(** What one row shows; the time label is kept as the raw timestamp,
    its formatting belongs to the date library. *)
Record Row := mkRow
  { rowKey : string;
    rowOther : string;
    rowName : string;
    rowAvatar : option string;
    rowHighlighted : bool;
    rowDashed : bool;
    rowBadge : option string;
    rowTime : option Z;
    rowSubtitle : string }.

(** The callback of [filteredChats.map]; [None] is the [null] row. *)
Definition renderChat (userProfile : option UserProfile.t)
    (pairedUsers : list PairedUser.t) (chat : Chat.t) : option Row :=
  match userProfile with
  | None => None
  | Some up =>
    match otherParticipantId (UserProfile.userId up) chat with
    | None => None
    | Some other =>
      if Js.truthy other then
        match Chat.participantDetails chat !! other with
        | None => None
        | Some otherParticipant =>
          Some {| rowKey := Chat.chatId chat;
                  rowOther := other;
                  rowName :=
                    resolveDisplayName pairedUsers other otherParticipant;
                  rowAvatar := Details.avatar otherParticipant;
                  rowHighlighted := negb (Chat.unreadCount chat =? 0);
                  rowDashed := Chat.isPending chat;
                  rowBadge := unreadBadge (Chat.unreadCount chat);
                  rowTime := Message.timestamp <$> Chat.lastMessage chat;
                  rowSubtitle := subtitle chat |}
        end
      else None
    end
  end.

Inductive View :=
  | Loading
  | NoChatsYet
  | ChatRows (rows : list (option Row)).

Definition ChatListPage (isInitialized : bool)
    (userProfile : option UserProfile.t) (chats : list Chat.t)
    (pairedUsers : list PairedUser.t) (searchQuery : string) : View :=
  if isInitialized then
    match filteredChats userProfile chats pairedUsers searchQuery with
    | [] => NoChatsYet
    | shown => ChatRows (map (renderChat userProfile pairedUsers) shown)
    end
  else Loading.

(** The rows of the page that are not [null]. *)
Definition renderedRows (v : View) : list Row :=
  match v with
  | ChatRows rows => omap id rows
  | _ => []
  end.

(** ** Selecting a row *)

(** What a click does: where the window is sent, and the calls made to
    [createOrGetChat] as (participantId, displayName, avatar). *)
Record ClickOutcome := mkClick
  { navigatedTo : option string;
    createCalls : list (string * string * option string) }.

(** [handleChatClick(chatId, participantId)]; [createOrGetChat] is the
    operation of the application context. *)
Definition handleChatClick (userProfile : option UserProfile.t)
    (pairedUsers : list PairedUser.t)
    (createOrGetChat : string -> string -> option string -> Chat.t)
    (chatId : string) (participantId : option string) : ClickOutcome :=
  if Js.truthy chatId then
    mkClick (Some ("/chat/messages/" +:+ chatId)) []
  else
    match participantId, userProfile with
    | Some pid, Some _ =>
      if Js.truthy pid then
        let pairedUser :=
          List.find (fun user => String.eqb (PairedUser.userId user) pid)
                    pairedUsers in
        let displayName :=
          Js.orElse (pairedUser ≫= PairedUser.localDisplayName)
            (Js.orElse (PairedUser.displayName <$> pairedUser)
                       ("User " +:+ String.substring 0 6 pid)) in
        let avatar := pairedUser ≫= PairedUser.avatar in
        let chat := createOrGetChat pid displayName avatar in
        mkClick (Some ("/chat/messages/" +:+ Chat.chatId chat))
                [(pid, displayName, avatar)]
      else mkClick None []
    | _, _ => mkClick None []
    end.

(** The [onClick] of a row: [handleChatClick(chat.chatId,
    otherParticipantId)]. *)
Definition rowClick (userProfile : option UserProfile.t)
    (pairedUsers : list PairedUser.t)
    (createOrGetChat : string -> string -> option string -> Chat.t)
    (row : Row) : ClickOutcome :=
  handleChatClick userProfile pairedUsers createOrGetChat
                  (rowKey row) (Some (rowOther row)).

(** ** The callbacks with their exceptions *)

Inductive JsError :=
  | TypeError
  | RangeError.

(** What an evaluation ends in: a value, or a thrown exception. *)
Inductive Outcome (A : Type) :=
  | Returned (a : A)
  | Thrown (e : JsError).

Arguments Returned {A} a.
Arguments Thrown {A} e.

(** What [obj[key]] finds in a dictionary object: an own entry, a member
    inherited from [Object.prototype] (a function, or the prototype
    itself for [__proto__]), or nothing. *)
Inductive Property :=
  | Own (d : Details.t)
  | Inherited
  | Missing.

(** [obj[key]]; [inherited] tells which keys [Object.prototype]
    answers. *)
Definition getProperty (inherited : string -> bool)
    (obj : gmap string Details.t) (key : string) : Property :=
  match obj !! key with
  | Some d => Own d
  | None => if inherited key then Inherited else Missing
  end.

(** The members of [Object.prototype] in the ECMAScript standard. *)
Definition objectPrototypeKeys : list string :=
  [ "constructor"; "__proto__"; "hasOwnProperty"; "isPrototypeOf";
    "propertyIsEnumerable"; "toLocaleString"; "toString"; "valueOf";
    "__defineGetter__"; "__defineSetter__"; "__lookupGetter__";
    "__lookupSetter__" ].

Definition standardInherited (key : string) : bool :=
  Js.arrIncludes objectPrototypeKeys key.

(** [otherParticipant.displayName]: [None] is [undefined], which is what
    an inherited member answers. *)
Definition storedDisplayName (otherParticipant : Property) : option string :=
  match otherParticipant with
  | Own d => Some (Details.displayName d)
  | _ => None
  end.

(** [otherParticipant.avatar] *)
Definition storedAvatar (otherParticipant : Property) : option string :=
  match otherParticipant with
  | Own d => Details.avatar d
  | _ => None
  end.

(** [a || b] where both may be [undefined]. *)
Definition orUndefined (a b : option string) : option string :=
  match a with
  | Some s => if Js.truthy s then Some s else b
  | None => b
  end.

(** The [displayName] of a row; [None] is [undefined]. *)
Definition rowDisplayName (pairedUsers : list PairedUser.t)
    (otherId : string) (otherParticipant : Property) : option string :=
  let pairedUser :=
    List.find (fun user => String.eqb (PairedUser.userId user) otherId)
              pairedUsers in
  orUndefined (pairedUser ≫= PairedUser.localDisplayName)
    (orUndefined (PairedUser.displayName <$> pairedUser)
                 (storedDisplayName otherParticipant)).

(** [new Date(t)] is a valid date: [t] is within 8.64e15 ms of the
    epoch. *)
Definition validTime (t : Z) : bool :=
  Z.abs t <=? 8640000000000000.

(** The last message, if any, carries a time that [format] accepts. *)
Definition timeInRange (chat : Chat.t) : bool :=
  match Chat.lastMessage chat with
  | Some m => validTime (Message.timestamp m)
  | None => true
  end.

(** The callback of [allChats.filter]: reading [displayName] off an
    inherited member gives [undefined], and [toLowerCase] on it
    throws. *)
Definition chatMatchesE (inherited : string -> bool)
    (userProfile : option UserProfile.t) (searchQuery : string)
    (chat : Chat.t) : Outcome bool :=
  match userProfile with
  | None => Returned false
  | Some up =>
    match otherParticipantId (UserProfile.userId up) chat with
    | None => Returned false
    | Some other =>
      if Js.truthy other then
        match getProperty inherited (Chat.participantDetails chat) other with
        | Missing => Returned false
        | Inherited => Thrown TypeError
        | Own otherParticipant =>
          Returned
            (Js.includes
               (Js.toLowerCase (Details.displayName otherParticipant))
               (Js.toLowerCase searchQuery))
        end
      else Returned false
    end
  end.

(** The element returned by the callback of [filteredChats.map]:
    [displayName.substring] throws on [undefined], and [format] throws
    on an invalid date. *)
Definition rowE (pairedUsers : list PairedUser.t) (chat : Chat.t)
    (other : string) (otherParticipant : Property) : Outcome Row :=
  match rowDisplayName pairedUsers other otherParticipant with
  | None => Thrown TypeError
  | Some displayName =>
    if timeInRange chat then
      Returned {| rowKey := Chat.chatId chat;
                  rowOther := other;
                  rowName := displayName;
                  rowAvatar := storedAvatar otherParticipant;
                  rowHighlighted := negb (Chat.unreadCount chat =? 0);
                  rowDashed := Chat.isPending chat;
                  rowBadge := unreadBadge (Chat.unreadCount chat);
                  rowTime := Message.timestamp <$> Chat.lastMessage chat;
                  rowSubtitle := subtitle chat |}
    else Thrown RangeError
  end.

(** The callback of [filteredChats.map]. *)
Definition renderChatE (inherited : string -> bool)
    (userProfile : option UserProfile.t) (pairedUsers : list PairedUser.t)
    (chat : Chat.t) : Outcome (option Row) :=
  match userProfile with
  | None => Returned None
  | Some up =>
    match otherParticipantId (UserProfile.userId up) chat with
    | None => Returned None
    | Some other =>
      if Js.truthy other then
        match getProperty inherited (Chat.participantDetails chat) other with
        | Missing => Returned None
        | otherParticipant =>
          match rowE pairedUsers chat other otherParticipant with
          | Returned row => Returned (Some row)
          | Thrown e => Thrown e
          end
        end
      else Returned None
    end
  end.

(** [arr.filter(p)] for a callback that may throw: the elements are
    visited in order and the first exception ends the call. *)
Fixpoint filterE {A} (p : A -> Outcome bool) (l : list A)
  : Outcome (list A) :=
  match l with
  | [] => Returned []
  | x :: l' =>
    match p x with
    | Thrown e => Thrown e
    | Returned b =>
      match filterE p l' with
      | Thrown e => Thrown e
      | Returned rest => Returned (if b then x :: rest else rest)
      end
    end
  end.

(** [arr.map(f)] for a callback that may throw. *)
Fixpoint mapE {A B} (f : A -> Outcome B) (l : list A) : Outcome (list B) :=
  match l with
  | [] => Returned []
  | x :: l' =>
    match f x with
    | Thrown e => Thrown e
    | Returned y =>
      match mapE f l' with
      | Thrown e => Thrown e
      | Returned rest => Returned (y :: rest)
      end
    end
  end.

Definition filteredChatsE (inherited : string -> bool)
    (userProfile : option UserProfile.t) (chats : list Chat.t)
    (pairedUsers : list PairedUser.t) (searchQuery : string)
  : Outcome (list Chat.t) :=
  filterE (chatMatchesE inherited userProfile searchQuery)
          (createCombinedChatList userProfile chats pairedUsers).

(** The page: the spinner is returned before the lists are built. *)
Definition ChatListPageE (inherited : string -> bool) (isInitialized : bool)
    (userProfile : option UserProfile.t) (chats : list Chat.t)
    (pairedUsers : list PairedUser.t) (searchQuery : string)
  : Outcome View :=
  if isInitialized then
    match filteredChatsE inherited userProfile chats pairedUsers
                         searchQuery with
    | Thrown e => Thrown e
    | Returned [] => Returned NoChatsYet
    | Returned shown =>
      match mapE (renderChatE inherited userProfile pairedUsers) shown with
      | Thrown e => Thrown e
      | Returned rows => Returned (ChatRows rows)
      end
    end
  else Returned Loading.

(** ** Concrete data used by the examples *)

Module Sample.

Definition me : UserProfile.t := UserProfile.mk "me" "Me" None.

Definition robert : PairedUser.t :=
  PairedUser.mk "u1" "Robert" (Some "Bob") None.

Definition alice : PairedUser.t :=
  PairedUser.mk "a9" "Alice" None None.

Definition selfPair : PairedUser.t :=
  PairedUser.mk "me" "Me" None None.

Definition chatWith (other name : string) (unread : Z) : Chat.t :=
  {| Chat.chatId := Js.join "_" (Js.sort ["me"; other]);
     Chat.participants := Js.sort ["me"; other];
     Chat.participantDetails :=
       <[ other := Details.mk name None ]>
       (<[ "me" := Details.mk "Me" None ]> ∅);
     Chat.lastMessage := Some (Message.mk "hi" 1700000000000 false);
     Chat.unreadCount := unread;
     Chat.isPending := false |}.

Definition robertChat : Chat.t := chatWith "u1" "Robert" 12.

Definition zedChat : Chat.t := chatWith "zed" "Zed" 3.

(** A conversation between two other users. *)
Definition foreignChat : Chat.t :=
  {| Chat.chatId := "x_y";
     Chat.participants := ["x"; "y"];
     Chat.participantDetails :=
       <[ "y" := Details.mk "Yan" None ]>
       (<[ "x" := Details.mk "Xi" None ]> ∅);
     Chat.lastMessage := None;
     Chat.unreadCount := 0;
     Chat.isPending := false |}.

(** A conversation whose last message was deleted for everyone. *)
Definition deletedChat (text : string) : Chat.t :=
  {| Chat.chatId := "me_u1";
     Chat.participants := ["me"; "u1"];
     Chat.participantDetails :=
       <[ "u1" := Details.mk "Robert" None ]>
       (<[ "me" := Details.mk "Me" None ]> ∅);
     Chat.lastMessage := Some (Message.mk text 1700000000000 true);
     Chat.unreadCount := 0;
     Chat.isPending := false |}.

(** A conversation between two other users, the first of which is named
    like a member of [Object.prototype] and has no stored details. *)
Definition constructorChat : Chat.t :=
  {| Chat.chatId := "constructor_y";
     Chat.participants := ["constructor"; "y"];
     Chat.participantDetails := <[ "y" := Details.mk "Yan" None ]> ∅;
     Chat.lastMessage := None;
     Chat.unreadCount := 0;
     Chat.isPending := false |}.

(** A conversation whose last message carries a time no [Date] holds. *)
Definition lateChat : Chat.t :=
  {| Chat.chatId := "me_u1";
     Chat.participants := ["me"; "u1"];
     Chat.participantDetails :=
       <[ "u1" := Details.mk "Robert" None ]>
       (<[ "me" := Details.mk "Me" None ]> ∅);
     Chat.lastMessage := Some (Message.mk "hi" 8640000000000001 false);
     Chat.unreadCount := 0;
     Chat.isPending := false |}.

(** A stand-in for the [createOrGetChat] of the application context. *)
Definition createOrGetChat (participantId displayName : string)
    (avatar : option string) : Chat.t :=
  {| Chat.chatId := Js.join "_" (Js.sort ["me"; participantId]);
     Chat.participants := Js.sort ["me"; participantId];
     Chat.participantDetails :=
       <[ participantId := Details.mk displayName avatar ]>
       (<[ "me" := Details.mk "Me" None ]> ∅);
     Chat.lastMessage := None;
     Chat.unreadCount := 0;
     Chat.isPending := false |}.

End Sample.

(** ** Notions used by the statements *)

(** The paired users for which the loop finds no conversation. *)
Definition missingUsers (up : UserProfile.t) (chats : list Chat.t)
    (pairedUsers : list PairedUser.t) : list PairedUser.t :=
  List.filter
    (fun user =>
       match existingChat (UserProfile.userId up)
                          (PairedUser.userId user) chats with
       | Some _ => false
       | None => true
       end)
    pairedUsers.

(** Two participant arrays name the same unordered pair. *)
Definition samePair (p q : list string) : Prop := p ≡ₚ q.

#[global] Instance samePair_dec p q : Decision (samePair p q).
Proof. unfold samePair. apply _. Defined.

(** No two entries, at different positions, name the same pair. *)
Definition distinctPairs (l : list Chat.t) : Prop :=
  forall i j ci cj,
    l !! i = Some ci -> l !! j = Some cj -> i <> j ->
    ~ samePair (Chat.participants ci) (Chat.participants cj).

(** The entry names the pair of the local user and the contact. *)
Definition entryFor (selfId userId : string) (c : Chat.t) : bool :=
  bool_decide (samePair (Chat.participants c) [selfId; userId]).

(** The entry is a placeholder for the contact. *)
Definition isPlaceholderFor (selfId userId : string) (c : Chat.t) : bool :=
  Chat.isPending c && entryFor selfId userId c.

(** The entries the reconciler appended to the input conversations. *)
Definition addedEntries (chats out : list Chat.t) : list Chat.t :=
  drop (length chats) out.

(** An entry whose two participants are both the local user. *)
Definition selfConversation (up : UserProfile.t) (c : Chat.t) : Prop :=
  Chat.isPending c = true
  /\ Chat.participants c = [UserProfile.userId up; UserProfile.userId up].

(** The paired contacts that carry the local user's id. *)
Definition selfPairedUsers (up : UserProfile.t)
    (pairedUsers : list PairedUser.t) : list PairedUser.t :=
  List.filter
    (fun user => String.eqb (PairedUser.userId user) (UserProfile.userId up))
    pairedUsers.

(** What the callbacks read when the first participant is taken as the
    other one: that id and the property found under it, unless the array
    is empty or the id is the empty string. *)
Definition firstParticipantProperty (inherited : string -> bool)
    (c : Chat.t) : option (string * Property) :=
  match Chat.participants c with
  | [] => None
  | first :: _ =>
    if Js.truthy first
    then Some (first, getProperty inherited (Chat.participantDetails c) first)
    else None
  end.

(** Stored details exist for every participant of the conversation. *)
Definition detailsComplete (c : Chat.t) : Prop :=
  forall id, In id (Chat.participants c) ->
             is_Some (Chat.participantDetails c !! id).

(** The other participant of the conversation can be read: some
    participant differs from the local user, the first such id is not
    empty and has stored details. *)
Definition hasOtherParticipant (selfId : string) (c : Chat.t) : Prop :=
  exists other,
    otherParticipantId selfId c = Some other
    /\ other <> EmptyString
    /\ is_Some (Chat.participantDetails c !! other).

(** The conversation with the text of a deleted last message blanked. *)
Definition redactDeleted (c : Chat.t) : Chat.t :=
  {| Chat.chatId := Chat.chatId c;
     Chat.participants := Chat.participants c;
     Chat.participantDetails := Chat.participantDetails c;
     Chat.lastMessage :=
       (fun m => if Message.deletedForEveryone m
                 then Message.mk EmptyString (Message.timestamp m) true
                 else m) <$> Chat.lastMessage c;
     Chat.unreadCount := Chat.unreadCount c;
     Chat.isPending := Chat.isPending c |}.

(** The id does not contain the separator of chat ids. *)
Fixpoint noUnderscore (s : string) : bool :=
  match s with
  | EmptyString => true
  | String c s' => negb (Ascii.eqb c "_") && noUnderscore s'
  end.

(** The paired users that carry a given id. *)
Definition usersWithId (userId : string) (pairedUsers : list PairedUser.t)
  : list PairedUser.t :=
  List.filter (fun user => String.eqb (PairedUser.userId user) userId)
              pairedUsers.

(** ** Checks on the sample data *)

Example sample_placeholder :
  map Chat.chatId
      (createCombinedChatList (Some Sample.me) [Sample.robertChat]
                              [Sample.robert; Sample.alice])
  = ["me_u1"; "a9_me"].
Proof. vm_compute. reflexivity. Qed.

Example sample_badges :
  map unreadBadge [12; 10; 9; 1; 0] = [Some "9+"; Some "9+"; Some "9"; Some "1"; None].
Proof. vm_compute. reflexivity. Qed.

Example sample_lower :
  Js.toLowerCase "RoBert Z@[`{" = "robert z@[`{".
Proof. vm_compute. reflexivity. Qed.

Example sample_includes :
  Js.includes "robert" "ber" = true /\ Js.includes "robert" "" = true
  /\ Js.includes "alice" "rob" = false /\ Js.includes "" "" = true.
Proof. vm_compute. auto. Qed.

(** ** The loop as an append *)

Lemma fold_addPairedUser up chats pairedUsers : forall chatList,
  fold_left (addPairedUser up chats) pairedUsers chatList
  = chatList ++ map (newChat up) (missingUsers up chats pairedUsers).
Proof.
  induction pairedUsers as [|user rest IH]; intros chatList; simpl.
  - by rewrite app_nil_r.
  - rewrite IH. unfold addPairedUser.
    destruct (existingChat _ _ chats); simpl; [done|].
    by rewrite <- app_assoc.
Qed.

Lemma createCombinedChatList_app up chats pairedUsers :
  createCombinedChatList (Some up) chats pairedUsers
  = chats ++ map (newChat up) (missingUsers up chats pairedUsers).
Proof. apply fold_addPairedUser. Qed.

Lemma missingUsers_In up chats pairedUsers user :
  In user (missingUsers up chats pairedUsers) <->
  In user pairedUsers
  /\ existingChat (UserProfile.userId up) (PairedUser.userId user) chats = None.
Proof.
  unfold missingUsers. rewrite filter_In.
  destruct (existingChat _ _ chats); intuition congruence.
Qed.

(** ** Facts about the string helpers *)

Lemma arrIncludes_In arr x : Js.arrIncludes arr x = true <-> In x arr.
Proof.
  unfold Js.arrIncludes. rewrite existsb_exists. split.
  - intros (y & Hy & Heq). apply String.eqb_eq in Heq. by subst.
  - intros Hx. exists x. split; [done|]. apply String.eqb_refl.
Qed.

Lemma existingChat_None selfId userId chats :
  existingChat selfId userId chats = None <->
  forall c, In c chats ->
    ~ (In selfId (Chat.participants c) /\ In userId (Chat.participants c)).
Proof.
  unfold existingChat. split.
  - intros Hnone c Hc [Hs Hu].
    pose proof (find_none _ _ Hnone c Hc) as Hf. simpl in Hf.
    apply andb_false_iff in Hf.
    destruct Hf as [Hf|Hf]; apply not_true_iff_false in Hf;
      apply Hf, arrIncludes_In; done.
  - intros Hall.
    destruct (List.find _ chats) as [c|] eqn:Hfind; [|done].
    apply find_some in Hfind as [Hc Hp]. simpl in Hp.
    apply andb_true_iff in Hp as [Hu Hs].
    apply arrIncludes_In in Hu, Hs. by destruct (Hall c Hc).
Qed.

Lemma insertSorted_perm x l : Js.insertSorted x l ≡ₚ x :: l.
Proof.
  induction l as [|y l IH]; simpl; [done|].
  destruct (String.leb x y); [done|].
  rewrite IH. apply Permutation_swap.
Qed.

Lemma sort_perm arr : Js.sort arr ≡ₚ arr.
Proof.
  induction arr as [|x arr IH]; simpl; [done|].
  rewrite insertSorted_perm. by rewrite IH.
Qed.

Lemma sort_pair a b :
  Js.sort [a; b] = if String.leb a b then [a; b] else [b; a].
Proof. reflexivity. Qed.

Lemma sort_pair_comm a b : Js.sort [a; b] = Js.sort [b; a].
Proof.
  rewrite !sort_pair.
  destruct (String.leb a b) eqn:Hab, (String.leb b a) eqn:Hba; try done.
  - by rewrite (String.leb_antisym _ _ Hab Hba).
  - destruct (String.leb_total a b); congruence.
Qed.

(** ** The reconciler: order, identifiers, absent profile *)

(** C8. Without a loaded profile the reconciler returns the empty list,
    whatever the conversations and the paired contacts are. *)
Theorem createCombinedChatList_no_profile
    (chats : list Chat.t) (pairedUsers : list PairedUser.t) :
  createCombinedChatList None chats pairedUsers = [].
Proof. reflexivity. Qed.

(** C7. The identifier synthesized for a pair does not depend on the
    order of the two ids: the pair is sorted and joined with "_", and a
    placeholder carries exactly that identifier for the local user and
    the contact. *)
Theorem chatId_commutative
    (a b nameA nameB : string) (nickA nickB : option string)
    (avatarA avatarB : option string) :
  Js.join "_" (sortedParticipantIds a b)
  = Js.join "_" (sortedParticipantIds b a)
  /\ Chat.chatId (newChat (UserProfile.mk a nameA avatarA)
                          (PairedUser.mk b nameB nickB avatarB))
     = Chat.chatId (newChat (UserProfile.mk b nameB avatarB)
                            (PairedUser.mk a nameA nickA avatarA)).
Proof.
  unfold newChat, sortedParticipantIds. cbn [Chat.chatId
    UserProfile.userId PairedUser.userId].
  by rewrite (sort_pair_comm a b).
Qed.

(** C6. With a profile, the output is the input conversations, in their
    order and unchanged, followed by the placeholders: every entry after
    the input ones is a pending entry synthesized for a paired contact. *)
Theorem createCombinedChatList_real_then_placeholders
    (up : UserProfile.t) (chats : list Chat.t)
    (pairedUsers : list PairedUser.t) :
  let out := createCombinedChatList (Some up) chats pairedUsers in
  take (length chats) out = chats
  /\ out = chats ++ drop (length chats) out
  /\ Forall (fun c => Chat.isPending c = true
                      /\ exists user, In user pairedUsers
                                      /\ c = newChat up user)
            (drop (length chats) out).
Proof.
  intros out. subst out. rewrite createCombinedChatList_app.
  rewrite take_app_length, drop_app_length. repeat split.
  apply Forall_forall. intros c Hc.
  apply list_elem_of_In, in_map_iff in Hc as (user & <- & Huser).
  apply missingUsers_In in Huser as [Hin _]. eauto.
Qed.

(** ** The search filter keeps a subsequence *)

Lemma filter_sublist {A} (p : A -> bool) (l : list A) :
  List.filter p l `sublist_of` l.
Proof.
  induction l as [|x l IH]; simpl; [constructor|].
  destruct (p x); by constructor.
Qed.

Lemma filter_count_le (p : Chat.t -> bool) (l : list Chat.t) (c : Chat.t) :
  (count_occ Chat.eq_dec (List.filter p l) c
   <= count_occ Chat.eq_dec l c)%nat.
Proof.
  induction l as [|x l IH]; simpl; [lia|].
  destruct (p x); simpl; destruct (Chat.eq_dec x c); lia.
Qed.

(** C10. The filter returns a subsequence of its input, for every list
    and query: the retained elements are elements of the input, in their
    original order, none changed and none more often than in the input;
    [filteredChats] is that filter applied to the combined list. *)
Theorem filteredChats_subsequence
    (userProfile : option UserProfile.t) (searchQuery : string) :
  (forall l : list Chat.t,
      List.filter (chatMatches userProfile searchQuery) l `sublist_of` l
      /\ (forall c, In c (List.filter (chatMatches userProfile searchQuery) l)
                    -> In c l)
      /\ (forall c,
            (count_occ Chat.eq_dec
               (List.filter (chatMatches userProfile searchQuery) l) c
             <= count_occ Chat.eq_dec l c)%nat))
  /\ (forall chats pairedUsers,
        filteredChats userProfile chats pairedUsers searchQuery
          `sublist_of` createCombinedChatList userProfile chats pairedUsers).
Proof.
  split.
  - intros l. split; [apply filter_sublist|]. split.
    + intros c Hc. by apply filter_In in Hc as [? _].
    + intros c. apply filter_count_le.
  - intros chats pairedUsers. apply filter_sublist.
Qed.

(** ** No two entries for one pair *)

Lemma newChat_participants up user :
  Chat.participants (newChat up user)
  = Js.sort [UserProfile.userId up; PairedUser.userId user].
Proof. reflexivity. Qed.

Lemma samePair_self_pair selfId u p :
  samePair p (Js.sort [selfId; u]) -> In selfId p /\ In u p.
Proof.
  unfold samePair. rewrite sort_perm. intros Hp.
  split; apply (Permutation_in _ (Permutation_sym Hp)); simpl; auto.
Qed.

Lemma samePair_placeholders selfId u u' :
  samePair (Js.sort [selfId; u]) (Js.sort [selfId; u']) -> u = u'.
Proof.
  unfold samePair. rewrite !sort_perm. intros Hp.
  apply Permutation_cons_inv in Hp. by apply Permutation_singleton_inj.
Qed.

Lemma real_not_placeholder up chats pairedUsers c user :
  In c chats -> In user (missingUsers up chats pairedUsers) ->
  ~ samePair (Chat.participants c) (Chat.participants (newChat up user)).
Proof.
  intros Hc Huser Hsame. rewrite newChat_participants in Hsame.
  apply samePair_self_pair in Hsame.
  apply missingUsers_In in Huser as [_ Hnone].
  by apply (proj1 (existingChat_None _ _ _) Hnone c Hc).
Qed.

Lemma NoDup_map_filter {A B} (f : A -> B) (p : A -> bool) (l : list A) :
  NoDup (map f l) -> NoDup (map f (List.filter p l)).
Proof.
  induction l as [|x l IH]; simpl; [done|].
  intros Hnd. apply NoDup_cons in Hnd as [Hx Hl].
  destruct (p x); simpl; [|by auto].
  apply NoDup_cons. split; [|by auto].
  intros Hin. apply Hx. apply list_elem_of_In.
  apply list_elem_of_In, in_map_iff in Hin as (y & Hy & Hin).
  apply filter_In in Hin as [Hin _]. apply in_map_iff. eauto.
Qed.

Lemma NoDup_map_lookup {A B} (f : A -> B) (l : list A) i j x y :
  NoDup (map f l) -> l !! i = Some x -> l !! j = Some y -> f x = f y ->
  i = j.
Proof.
  intros Hnd Hi Hj Hxy.
  change (map f l) with (f <$> l) in Hnd.
  apply (NoDup_lookup (f <$> l) i j (f x) Hnd).
  - by rewrite list_lookup_fmap, Hi.
  - by rewrite list_lookup_fmap, Hj, Hxy.
Qed.

(** C1. When no two input conversations name the same pair and no two
    paired contacts share a userId, no two entries of the output name
    the same unordered pair of participants. *)
Theorem createCombinedChatList_distinct_pairs
    (userProfile : option UserProfile.t) (chats : list Chat.t)
    (pairedUsers : list PairedUser.t) :
  distinctPairs chats ->
  NoDup (map PairedUser.userId pairedUsers) ->
  distinctPairs (createCombinedChatList userProfile chats pairedUsers).
Proof.
  intros Hchats Hnd. destruct userProfile as [up|]; [|by intros i j ci cj Hi].
  rewrite createCombinedChatList_app. intros i j ci cj Hi Hj Hij Hsame.
  change (map (newChat up) ?l) with (newChat up <$> l) in Hi, Hj.
  apply lookup_app_Some in Hi as [Hi|[Hil Hi]];
    apply lookup_app_Some in Hj as [Hj|[Hjl Hj]].
  - by apply (Hchats i j ci cj).
  - apply list_lookup_fmap_Some in Hj as (u & -> & Hu).
    apply list_elem_of_lookup_2, list_elem_of_In in Hi.
    apply list_elem_of_lookup_2, list_elem_of_In in Hu.
    by apply (real_not_placeholder up chats pairedUsers ci u).
  - apply list_lookup_fmap_Some in Hi as (u & -> & Hu).
    apply list_elem_of_lookup_2, list_elem_of_In in Hj.
    apply list_elem_of_lookup_2, list_elem_of_In in Hu.
    apply (real_not_placeholder up chats pairedUsers cj u); [done..|].
    by apply Permutation_sym.
  - apply list_lookup_fmap_Some in Hi as (u & -> & Hu).
    apply list_lookup_fmap_Some in Hj as (u' & -> & Hu').
    rewrite !newChat_participants in Hsame.
    apply samePair_placeholders in Hsame.
    pose proof (NoDup_map_lookup PairedUser.userId _ _ _ _ _
                  (NoDup_map_filter _ _ _ Hnd) Hu Hu' Hsame) as Heq.
    lia.
Qed.

(** ** One placeholder per contact without a conversation *)

Lemma filter_none {A} (p : A -> bool) (l : list A) :
  (forall x, In x l -> p x = false) -> List.filter p l = [].
Proof.
  induction l as [|x l IH]; simpl; intros Hall; [done|].
  rewrite (Hall x) by auto. apply IH. auto.
Qed.

Lemma filter_unique_key {A B} (f : A -> B) (p : A -> bool) (l : list A) x :
  NoDup (map f l) -> In x l -> (forall y, p y = true <-> f y = f x) ->
  List.filter p l = [x].
Proof.
  intros Hnd Hx Hp. induction l as [|y l IH]; simpl in *; [done|].
  apply NoDup_cons in Hnd as [Hy Hnd].
  destruct Hx as [->|Hx].
  - rewrite (proj2 (Hp x) eq_refl). f_equal. apply filter_none.
    intros z Hz. apply not_true_iff_false. intros Hpz. apply Hy.
    apply list_elem_of_In, in_map_iff. exists z. by rewrite (proj1 (Hp z) Hpz).
  - destruct (p y) eqn:Hpy; [|by apply IH].
    exfalso. apply Hy. apply list_elem_of_In, in_map_iff.
    exists x. by rewrite (proj1 (Hp y) Hpy).
Qed.

Lemma entryFor_newChat up user userId :
  entryFor (UserProfile.userId up) userId (newChat up user) = true
  <-> PairedUser.userId user = userId.
Proof.
  unfold entryFor. rewrite bool_decide_eq_true, newChat_participants.
  unfold samePair. rewrite sort_perm. split.
  - intros Hp. apply Permutation_cons_inv in Hp.
    by apply Permutation_singleton_inj.
  - by intros ->.
Qed.

Lemma entryFor_In selfId userId c :
  entryFor selfId userId c = true ->
  In selfId (Chat.participants c) /\ In userId (Chat.participants c).
Proof.
  unfold entryFor. rewrite bool_decide_eq_true. unfold samePair. intros Hp.
  split; apply (Permutation_in _ (Permutation_sym Hp)); simpl; auto.
Qed.

Lemma addedEntries_eq up chats pairedUsers :
  addedEntries chats (createCombinedChatList (Some up) chats pairedUsers)
  = map (newChat up) (missingUsers up chats pairedUsers).
Proof.
  unfold addedEntries. rewrite createCombinedChatList_app.
  apply drop_app_length.
Qed.

(** C2. For a paired contact (userIds of contacts being unique): no
    input conversation has both the local user and the contact among its
    participants exactly when the loop's search finds none; in that case
    the output holds exactly one placeholder for the contact, with the
    sorted pair as participants, the sorted pair joined by "_" as chatId,
    isPending set, unreadCount 0 and no lastMessage; otherwise none of
    the appended entries is for the contact's pair. *)
Theorem placeholder_iff_no_conversation
    (up : UserProfile.t) (chats : list Chat.t)
    (pairedUsers : list PairedUser.t) (user : PairedUser.t) :
  NoDup (map PairedUser.userId pairedUsers) ->
  In user pairedUsers ->
  let selfId := UserProfile.userId up in
  let userId := PairedUser.userId user in
  let out := createCombinedChatList (Some up) chats pairedUsers in
  (existingChat selfId userId chats = None <->
   forall c, In c chats ->
     ~ (In selfId (Chat.participants c) /\ In userId (Chat.participants c)))
  /\ match existingChat selfId userId chats with
     | None =>
       List.filter (isPlaceholderFor selfId userId) out
       = [ {| Chat.chatId := Js.join "_" (Js.sort [selfId; userId]);
              Chat.participants := Js.sort [selfId; userId];
              Chat.participantDetails :=
                Chat.participantDetails (newChat up user);
              Chat.lastMessage := None;
              Chat.unreadCount := 0;
              Chat.isPending := true |} ]
     | Some _ =>
       List.filter (entryFor selfId userId) (addedEntries chats out) = []
     end.
Proof.
  intros Hnd Huser selfId userId out.
  split; [apply existingChat_None|].
  destruct (existingChat selfId userId chats) as [c|] eqn:Hex.
  - subst out. rewrite addedEntries_eq. apply filter_none.
    intros p Hp. apply in_map_iff in Hp as (u & <- & Hu).
    apply not_true_iff_false. intros Hfor.
    apply entryFor_newChat in Hfor.
    apply missingUsers_In in Hu as [_ Hnone].
    rewrite Hfor in Hnone. fold selfId in Hnone. congruence.
  - change (Chat.mk _ _ _ _ _ _) with (newChat up user).
    subst out. rewrite createCombinedChatList_app, List.filter_app.
    rewrite (filter_none _ chats).
    + simpl. rewrite List.filter_map_swap.
      rewrite (filter_unique_key PairedUser.userId _ _ user); [done | | |].
      * by apply NoDup_map_filter.
      * by apply missingUsers_In.
      * intros u. unfold isPlaceholderFor. simpl Chat.isPending.
        apply entryFor_newChat.
    + intros c Hc. apply not_true_iff_false. intros Hfor.
      apply andb_true_iff in Hfor as [_ Hfor]. apply entryFor_In in Hfor.
      by apply (proj1 (existingChat_None _ _ _) Hex c Hc).
Qed.

(** ** A contact whose userId is the local user's *)

Lemma sort_same a : Js.sort [a; a] = [a; a].
Proof. rewrite sort_pair. by destruct (String.leb a a). Qed.

Lemma newChat_NoDup up user :
  PairedUser.userId user <> UserProfile.userId up ->
  NoDup (Chat.participants (newChat up user)).
Proof.
  intros Hne. rewrite newChat_participants, sort_perm.
  apply NoDup_cons. split; [|apply NoDup_singleton].
  intros Hin. apply list_elem_of_singleton in Hin. congruence.
Qed.

(** C3, as the code has it. Input conversations having two distinct
    participants each: when some input conversation has the local user
    among its participants, every output entry has distinct participants
    (a self-paired contact gets no placeholder); when none has, every
    self-paired contact gets a placeholder, and the output entries are
    those with distinct participants and these placeholders, whose
    participants are the local user's id twice. *)
Theorem self_pairing_placeholder
    (up : UserProfile.t) (chats : list Chat.t)
    (pairedUsers : list PairedUser.t) :
  Forall (fun c => NoDup (Chat.participants c)) chats ->
  let selfId := UserProfile.userId up in
  let out := createCombinedChatList (Some up) chats pairedUsers in
  (existingChat selfId selfId chats = None <->
   Forall (fun c => ~ In selfId (Chat.participants c)) chats)
  /\ match existingChat selfId selfId chats with
     | Some _ => Forall (fun c => NoDup (Chat.participants c)) out
     | None =>
       Forall (fun c => NoDup (Chat.participants c) \/ selfConversation up c)
              out
       /\ Forall (fun user => In (newChat up user) out)
                 (selfPairedUsers up pairedUsers)
     end.
Proof.
  intros Hwf selfId out. split.
  { rewrite existingChat_None, Forall_forall. split.
    - intros H c Hc Hs. apply (H c); [by apply list_elem_of_In|done].
    - intros H c Hc [Hs _]. apply (H c); [by apply list_elem_of_In|done]. }
  subst out. rewrite createCombinedChatList_app.
  destruct (existingChat selfId selfId chats) as [c0|] eqn:Hex.
  - apply Forall_app. split; [done|].
    apply Forall_forall. intros c Hc.
    apply list_elem_of_In, in_map_iff in Hc as (u & <- & Hu).
    apply newChat_NoDup. intros Heq.
    apply missingUsers_In in Hu as [_ Hnone].
    rewrite Heq in Hnone. fold selfId in Hnone. congruence.
  - split.
    + apply Forall_app. split.
      * eapply Forall_impl; [exact Hwf|]. by left.
      * apply Forall_forall. intros c Hc.
        apply list_elem_of_In, in_map_iff in Hc as (u & <- & Hu).
        destruct (decide (PairedUser.userId u = selfId)) as [Heq|Hne].
        -- right. split; [done|].
           rewrite newChat_participants, Heq. apply sort_same.
        -- left. by apply newChat_NoDup.
    + apply Forall_forall. intros u Hu.
      apply list_elem_of_In, filter_In in Hu as [Hu Heq].
      apply String.eqb_eq in Heq.
      apply in_or_app. right. apply in_map, missingUsers_In.
      split; [done|]. rewrite Heq. exact Hex.
Qed.

(** C3 as stated fails: with no conversation yet and the local user
    among the paired contacts, the output holds an entry whose two
    participants are equal. *)
Lemma self_pairing_not_refused :
  In Sample.selfPair [Sample.selfPair]
  /\ PairedUser.userId Sample.selfPair = UserProfile.userId Sample.me
  /\ ~ Forall (fun c => NoDup (Chat.participants c))
         (createCombinedChatList (Some Sample.me) [] [Sample.selfPair]).
Proof.
  split; [by left|]. split; [done|].
  intros H. apply Forall_cons in H as [H _].
  vm_compute in H. apply NoDup_cons in H as [H _].
  apply H. by left.
Qed.

(** ** Conversations the local user is not part of *)

Lemma otherParticipantId_foreign selfId c :
  ~ In selfId (Chat.participants c) ->
  otherParticipantId selfId c = head (Chat.participants c).
Proof.
  unfold otherParticipantId. destruct (Chat.participants c) as [|p ps]; [done|].
  intros Hnot. simpl.
  destruct (String.eqb_spec p selfId) as [->|_]; [|done].
  exfalso. apply Hnot. by left.
Qed.

Lemma filterE_In {A} (p : A -> Outcome bool) (l shown : list A) x :
  filterE p l = Returned shown ->
  In x shown <-> In x l /\ p x = Returned true.
Proof.
  revert shown. induction l as [|y l IH]; simpl; intros shown Hret.
  - injection Hret as <-. simpl. tauto.
  - destruct (p y) as [b|e] eqn:Hy; [|done].
    destruct (filterE p l) as [rest|e]; [|done].
    injection Hret as <-. specialize (IH rest eq_refl).
    destruct b; simpl; rewrite IH; split.
    + intros [->|[? ?]]; auto.
    + intros [[->|?] ?]; auto.
    + intros [? ?]; auto.
    + intros [[->|?] Hx]; [congruence|auto].
Qed.

(** C5, as the code has it. For a conversation without the local user
    among its participants the first participant is taken as the other
    one. The filter callback answers false when the array is empty, that
    first id is the empty string, or nothing is found under it in
    participantDetails; it throws a TypeError when only a member of
    Object.prototype is found; with stored details it answers whether the
    stored name contains the query, case ignored. So, when the filter
    returns, the conversation is in the filtered list exactly when it is
    in the combined list, has stored details under that first id and
    matches. The row callback returns a row exactly when something is
    found under that id, a display name results and the time of the last
    message is in range; otherwise it returns null or throws. *)
Theorem foreign_chat_outcome
    (inherited : string -> bool) (up : UserProfile.t) (chats : list Chat.t)
    (pairedUsers : list PairedUser.t) (searchQuery : string) (c : Chat.t) :
  ~ In (UserProfile.userId up) (Chat.participants c) ->
  otherParticipantId (UserProfile.userId up) c = head (Chat.participants c)
  /\ chatMatchesE inherited (Some up) searchQuery c
     = match firstParticipantProperty inherited c with
       | Some (_, Own d) =>
         Returned (Js.includes (Js.toLowerCase (Details.displayName d))
                               (Js.toLowerCase searchQuery))
       | Some (_, Inherited) => Thrown TypeError
       | Some (_, Missing) | None => Returned false
       end
  /\ (forall shown,
        filteredChatsE inherited (Some up) chats pairedUsers searchQuery
        = Returned shown ->
        In c shown <->
        In c (createCombinedChatList (Some up) chats pairedUsers)
        /\ exists first d,
             firstParticipantProperty inherited c = Some (first, Own d)
             /\ Js.includes (Js.toLowerCase (Details.displayName d))
                            (Js.toLowerCase searchQuery) = true)
  /\ (forall row,
        renderChatE inherited (Some up) pairedUsers c = Returned (Some row)
        <-> exists first found,
              firstParticipantProperty inherited c = Some (first, found)
              /\ found <> Missing
              /\ rowE pairedUsers c first found = Returned row)
  /\ (forall row,
        renderChatE inherited (Some up) pairedUsers c = Returned (Some row) ->
        timeInRange c = true
        /\ rowDisplayName pairedUsers (rowOther row)
             (getProperty inherited (Chat.participantDetails c)
                          (rowOther row))
           = Some (rowName row)).
Proof.
  intros Hnot. pose proof (otherParticipantId_foreign _ _ Hnot) as Hother.
  assert (chatMatchesE inherited (Some up) searchQuery c
          = match firstParticipantProperty inherited c with
            | Some (_, Own d) =>
              Returned (Js.includes (Js.toLowerCase (Details.displayName d))
                                    (Js.toLowerCase searchQuery))
            | Some (_, Inherited) => Thrown TypeError
            | Some (_, Missing) | None => Returned false
            end) as Hmatch.
  { unfold chatMatchesE, firstParticipantProperty. rewrite Hother.
    destruct (Chat.participants c) as [|p ps]; simpl; [done|].
    destruct (Js.truthy p); [|done].
    by destruct (getProperty inherited _ p). }
  assert (forall row,
            renderChatE inherited (Some up) pairedUsers c
            = Returned (Some row)
            <-> exists first found,
                  firstParticipantProperty inherited c = Some (first, found)
                  /\ found <> Missing
                  /\ rowE pairedUsers c first found = Returned row) as Hrow.
  { intros row. unfold renderChatE, firstParticipantProperty.
    rewrite Hother. destruct (Chat.participants c) as [|p ps]; simpl.
    { split; [done|]. by intros (? & ? & ? & _). }
    destruct (Js.truthy p).
    2:{ split; [done|]. by intros (? & ? & ? & _). }
    destruct (getProperty inherited _ p) as [d| |] eqn:Hprop.
    - destruct (rowE pairedUsers c p (Own d)) as [r|e] eqn:Hr; split.
      + intros [= <-]. by exists p, (Own d).
      + intros (? & ? & [= <- <-] & _ & Hr'). congruence.
      + done.
      + intros (? & ? & [= <- <-] & _ & Hr'). congruence.
    - destruct (rowE pairedUsers c p Inherited) as [r|e] eqn:Hr; split.
      + intros [= <-]. by exists p, Inherited.
      + intros (? & ? & [= <- <-] & _ & Hr'). congruence.
      + done.
      + intros (? & ? & [= <- <-] & _ & Hr'). congruence.
    - split; [done|]. by intros (? & ? & [= <- <-] & ? & _). }
  split; [done|]. split; [done|]. split; [|split; [done|]].
  - intros shown Hshown. unfold filteredChatsE in Hshown.
    rewrite (filterE_In _ _ _ c Hshown), Hmatch.
    destruct (firstParticipantProperty inherited c) as [[first [d| |]]|];
      split; try (by intros [_ ?]).
    + intros [? [= Hin]]. split; [done|]. by exists first, d.
    + intros [? (f & d' & [= <- <-] & ->)]. done.
    + by intros [_ (? & ? & ? & _)].
    + by intros [_ (? & ? & ? & _)].
    + by intros [_ (? & ? & ? & _)].
  - intros row Hr. apply Hrow in Hr as (first & found & Hfpp & _ & Hr).
    unfold firstParticipantProperty in Hfpp.
    destruct (Chat.participants c) as [|p ps]; [done|].
    destruct (Js.truthy p); [|done]. injection Hfpp as <- <-.
    unfold rowE in Hr.
    destruct (rowDisplayName pairedUsers p _) as [name|] eqn:Hname; [|done].
    destruct (timeInRange c); [|done]. injection Hr as <-. by simpl.
Qed.

(** C5 as stated fails: a conversation between two other users passes
    the filter and gets a row. *)
Lemma foreign_chat_not_excluded :
  ~ In (UserProfile.userId Sample.me) (Chat.participants Sample.foreignChat)
  /\ In Sample.foreignChat
        (filteredChats (Some Sample.me) [Sample.foreignChat] [] "")
  /\ map rowKey
         (renderedRows
            (ChatListPage true (Some Sample.me) [Sample.foreignChat] [] ""))
     = ["x_y"].
Proof.
  split.
  - simpl. intros [H|[H|[]]]; discriminate H.
  - split; [by left|]. vm_compute. reflexivity.
Qed.

(** ** The name the filter matches *)

(** C4 fails on the code. The row shows the name resolved through the
    paired contact (nickname first), the filter reads the name stored in
    the conversation only: for a contact stored as "Robert" and nicknamed
    "Bob", the row is titled "Bob", the query "bob" occurs in that title,
    and the filter drops the conversation. *)
Lemma filter_reads_stored_name :
  filteredChats (Some Sample.me) [Sample.robertChat] [Sample.robert] "bob"
  = []
  /\ map rowName
         (renderedRows
            (ChatListPage true (Some Sample.me) [Sample.robertChat]
                          [Sample.robert] ""))
     = ["Bob"]
  /\ Js.includes (Js.toLowerCase "Bob") (Js.toLowerCase "bob") = true
  /\ filteredChats (Some Sample.me) [Sample.robertChat] [Sample.robert] "rob"
     = [Sample.robertChat].
Proof. vm_compute. repeat split; reflexivity. Qed.

(** What the filter does instead: it matches the stored name, whatever
    the paired contacts are. *)
Lemma chatMatches_stored_name up searchQuery c other d :
  otherParticipantId (UserProfile.userId up) c = Some other ->
  other <> EmptyString ->
  Chat.participantDetails c !! other = Some d ->
  chatMatches (Some up) searchQuery c
  = Js.includes (Js.toLowerCase (Details.displayName d))
                (Js.toLowerCase searchQuery).
Proof.
  intros Hother Hne Hd. unfold chatMatches. rewrite Hother.
  destruct other; [done|]. simpl. by rewrite Hd.
Qed.

(** ** The unread badge *)

Lemma chatMatches_renderChat up pairedUsers searchQuery c :
  chatMatches (Some up) searchQuery c = true ->
  exists row, renderChat (Some up) pairedUsers c = Some row
              /\ rowBadge row = unreadBadge (Chat.unreadCount c).
Proof.
  unfold chatMatches, renderChat.
  destruct (otherParticipantId _ c) as [other|]; [|done].
  destruct (Js.truthy other); [|done].
  destruct (Chat.participantDetails c !! other); [|done].
  intros _. eauto.
Qed.

Lemma unreadBadge_digit n :
  0 < n <= 9 ->
  unreadBadge n = Some (String (ascii_of_N (48 + Z.to_N n)) EmptyString).
Proof.
  intros Hn.
  assert (n = 1 \/ n = 2 \/ n = 3 \/ n = 4 \/ n = 5 \/ n = 6 \/ n = 7
          \/ n = 8 \/ n = 9) as Hcases by lia.
  repeat (destruct Hcases as [->|Hcases]; [reflexivity|]).
  by subst.
Qed.

(** C9. For every displayed conversation (input counts being
    non-negative) the row carries a badge exactly when unreadCount > 0;
    its text is "9+" above 9 and the decimal digit of the count from 1 to
    9 (12 gives "9+", 9 gives "9", 0 gives none); and the displayed entry
    is an input conversation itself, count included, or a placeholder
    with count 0. *)
Theorem unread_badge_rule
    (up : UserProfile.t) (chats : list Chat.t)
    (pairedUsers : list PairedUser.t) (searchQuery : string) (c : Chat.t) :
  Forall (fun c => 0 <= Chat.unreadCount c) chats ->
  In c (filteredChats (Some up) chats pairedUsers searchQuery) ->
  (exists row,
      renderChat (Some up) pairedUsers c = Some row
      /\ (is_Some (rowBadge row) <-> 0 < Chat.unreadCount c)
      /\ (9 < Chat.unreadCount c -> rowBadge row = Some "9+")
      /\ (0 < Chat.unreadCount c <= 9 ->
          rowBadge row
          = Some (String (ascii_of_N (48 + Z.to_N (Chat.unreadCount c)))
                         EmptyString)))
  /\ (In c chats \/ (Chat.isPending c = true /\ Chat.unreadCount c = 0))
  /\ unreadBadge 12 = Some "9+"
  /\ unreadBadge 9 = Some "9"
  /\ unreadBadge 0 = None.
Proof.
  intros Hcounts Hc. apply filter_In in Hc as [Hall Hmatch].
  assert (In c chats \/ (Chat.isPending c = true /\ Chat.unreadCount c = 0))
    as Horigin.
  { rewrite createCombinedChatList_app in Hall.
    apply in_app_or in Hall as [?|Hph]; [by left|].
    apply in_map_iff in Hph as (u & <- & _). by right. }
  assert (0 <= Chat.unreadCount c) as Hpos.
  { destruct Horigin as [Hin|[_ ->]]; [|done].
    rewrite Forall_forall in Hcounts. by apply Hcounts, list_elem_of_In. }
  split; [|by repeat split].
  destruct (chatMatches_renderChat up pairedUsers _ _ Hmatch)
    as (row & Hrow & Hbadge).
  exists row. split; [done|]. rewrite Hbadge. repeat split.
  - unfold unreadBadge. destruct (Z.eqb_spec (Chat.unreadCount c) 0); [|lia].
    by intros [? ?].
  - intros Hlt. unfold unreadBadge.
    destruct (Z.eqb_spec (Chat.unreadCount c) 0); [lia|]. eauto.
  - intros Hlt. unfold unreadBadge.
    destruct (Z.eqb_spec (Chat.unreadCount c) 0); [lia|].
    by rewrite (proj2 (Z.ltb_lt _ _) Hlt).
  - apply unreadBadge_digit.
Qed.

(** ** The theorems at concrete inputs *)

Lemma distinctPairs_nil : distinctPairs [].
Proof. by intros i j ci cj Hi. Qed.

Lemma distinctPairs_cons c l :
  Forall (fun c' => ~ samePair (Chat.participants c) (Chat.participants c')) l ->
  distinctPairs l -> distinctPairs (c :: l).
Proof.
  intros Hc Hl [|i] [|j] ci cj Hi Hj Hij; simplify_eq/=.
  - rewrite Forall_forall in Hc.
    apply Hc. by apply (list_elem_of_lookup_2 l j).
  - rewrite Forall_forall in Hc. intros Hsame.
    apply (Hc ci); [by apply (list_elem_of_lookup_2 l i)|].
    by apply Permutation_sym.
  - apply (Hl i j); [done..|]. by intros ->.
Qed.

Lemma createCombinedChatList_distinct_pairs_witness :
  distinctPairs [Sample.robertChat; Sample.zedChat]
  /\ NoDup (map PairedUser.userId [Sample.robert; Sample.alice])
  /\ distinctPairs
       (createCombinedChatList (Some Sample.me)
          [Sample.robertChat; Sample.zedChat] [Sample.robert; Sample.alice]).
Proof.
  assert (distinctPairs [Sample.robertChat; Sample.zedChat]) as Hchats.
  { apply distinctPairs_cons; [|apply distinctPairs_cons;
                                 [constructor|apply distinctPairs_nil]].
    repeat constructor. compute_done. }
  assert (NoDup (map PairedUser.userId [Sample.robert; Sample.alice]))
    as Hnd by compute_done.
  split; [exact Hchats|]. split; [exact Hnd|].
  exact (createCombinedChatList_distinct_pairs _ _ _ Hchats Hnd).
Defined.

Lemma placeholder_iff_no_conversation_witness :
  NoDup (map PairedUser.userId [Sample.robert; Sample.alice])
  /\ In Sample.alice [Sample.robert; Sample.alice]
  /\ List.filter (isPlaceholderFor "me" "a9")
       (createCombinedChatList (Some Sample.me) [Sample.robertChat]
          [Sample.robert; Sample.alice])
     = [newChat Sample.me Sample.alice].
Proof.
  assert (NoDup (map PairedUser.userId [Sample.robert; Sample.alice]))
    as Hnd by compute_done.
  assert (In Sample.alice [Sample.robert; Sample.alice]) as Hin
    by (right; by left).
  split; [exact Hnd|]. split; [exact Hin|].
  exact (proj2 (placeholder_iff_no_conversation Sample.me
                  [Sample.robertChat] [Sample.robert; Sample.alice]
                  Sample.alice Hnd Hin)).
Defined.

Lemma self_pairing_placeholder_witness :
  Forall (fun c => NoDup (Chat.participants c)) [Sample.robertChat]
  /\ Forall (fun c => NoDup (Chat.participants c))
       (createCombinedChatList (Some Sample.me) [Sample.robertChat]
          [Sample.selfPair; Sample.alice]).
Proof.
  assert (Forall (fun c => NoDup (Chat.participants c)) [Sample.robertChat])
    as Hwf by (repeat constructor; compute_done).
  split; [exact Hwf|].
  exact (proj2 (self_pairing_placeholder Sample.me [Sample.robertChat]
                  [Sample.selfPair; Sample.alice] Hwf)).
Defined.

Lemma foreign_chat_outcome_witness :
  ~ In (UserProfile.userId Sample.me) (Chat.participants Sample.foreignChat)
  /\ otherParticipantId "me" Sample.foreignChat = Some "x"
  /\ chatMatchesE standardInherited (Some Sample.me) "XI" Sample.foreignChat
     = Returned true.
Proof.
  assert (~ In (UserProfile.userId Sample.me)
            (Chat.participants Sample.foreignChat)) as Hnot.
  { simpl. intros [H|[H|[]]]; discriminate H. }
  split; [exact Hnot|].
  destruct (foreign_chat_outcome standardInherited Sample.me
              [Sample.foreignChat] [] "XI" Sample.foreignChat Hnot)
    as (Hother & Hmatch & _).
  split; [exact Hother|]. exact Hmatch.
Defined.

Lemma unread_badge_rule_witness :
  Forall (fun c => 0 <= Chat.unreadCount c) [Sample.robertChat]
  /\ In Sample.robertChat
        (filteredChats (Some Sample.me) [Sample.robertChat]
                       [Sample.robert] "")
  /\ exists row,
       renderChat (Some Sample.me) [Sample.robert] Sample.robertChat
       = Some row
       /\ rowBadge row = Some "9+".
Proof.
  assert (Forall (fun c => 0 <= Chat.unreadCount c) [Sample.robertChat])
    as Hcounts by (repeat constructor; compute_done).
  assert (In Sample.robertChat
            (filteredChats (Some Sample.me) [Sample.robertChat]
                           [Sample.robert] "")) as Hin by (by left).
  split; [exact Hcounts|]. split; [exact Hin|].
  destruct (unread_badge_rule Sample.me [Sample.robertChat] [Sample.robert]
              "" Sample.robertChat Hcounts Hin)
    as ((row & Hrow & _ & Hbig & _) & _).
  exists row. split; [exact Hrow|]. apply Hbig. reflexivity.
Defined.

(** ** More on the reconciler *)

Lemma newChat_has_both up user :
  In (UserProfile.userId up) (Chat.participants (newChat up user))
  /\ In (PairedUser.userId user) (Chat.participants (newChat up user)).
Proof.
  apply samePair_self_pair. rewrite newChat_participants. by unfold samePair.
Qed.

Lemma missingUsers_covered up chats pairedUsers :
  missingUsers up
    (createCombinedChatList (Some up) chats pairedUsers) pairedUsers = [].
Proof.
  apply filter_none. intros user Huser.
  destruct (existingChat _ _ (createCombinedChatList _ _ _)) eqn:Hex; [done|].
  exfalso. rewrite existingChat_None in Hex.
  destruct (existingChat (UserProfile.userId up) (PairedUser.userId user)
                         chats) as [c|] eqn:Hin.
  - apply find_some in Hin as [Hc Hp]. simpl in Hp.
    apply andb_true_iff in Hp as [Hu Hs]. apply arrIncludes_In in Hu, Hs.
    apply (Hex c); [|done].
    rewrite createCombinedChatList_app. apply in_or_app. by left.
  - apply (Hex (newChat up user)); [|apply newChat_has_both].
    rewrite createCombinedChatList_app. apply in_or_app. right.
    apply in_map. by apply missingUsers_In.
Qed.

(** X1. Reconciling the reconciler's own output with the same paired
    users adds nothing: every paired user then has an entry. *)
Theorem createCombinedChatList_idempotent
    (userProfile : option UserProfile.t) (chats : list Chat.t)
    (pairedUsers : list PairedUser.t) :
  createCombinedChatList userProfile
    (createCombinedChatList userProfile chats pairedUsers) pairedUsers
  = createCombinedChatList userProfile chats pairedUsers.
Proof.
  destruct userProfile as [up|]; [|done].
  rewrite (createCombinedChatList_app up (createCombinedChatList _ _ _)).
  rewrite missingUsers_covered. apply app_nil_r.
Qed.

Lemma missingUsers_no_chats up pairedUsers :
  missingUsers up [] pairedUsers = pairedUsers.
Proof.
  unfold missingUsers. induction pairedUsers as [|u l IH]; simpl; [done|].
  f_equal. exact IH.
Qed.

(** X2. The output has at least the input conversations and at most one
    more entry per paired user; without paired users it is the input,
    and without conversations it is one placeholder per paired user, in
    the order of the paired users. *)
Theorem createCombinedChatList_size
    (up : UserProfile.t) (chats : list Chat.t)
    (pairedUsers : list PairedUser.t) :
  (length chats
   <= length (createCombinedChatList (Some up) chats pairedUsers)
   <= length chats + length pairedUsers)%nat
  /\ createCombinedChatList (Some up) chats [] = chats
  /\ createCombinedChatList (Some up) [] pairedUsers
     = map (newChat up) pairedUsers.
Proof.
  split; [|split; [done|]].
  - rewrite createCombinedChatList_app, length_app, length_map.
    pose proof (List.filter_length_le
                  (fun user =>
                     match existingChat (UserProfile.userId up)
                                        (PairedUser.userId user) chats with
                     | Some _ => false
                     | None => true
                     end) pairedUsers) as Hle.
    unfold missingUsers. lia.
  - rewrite createCombinedChatList_app. simpl.
    by rewrite missingUsers_no_chats.
Qed.

Lemma entryFor_newChat_eqb up user userId :
  entryFor (UserProfile.userId up) userId (newChat up user)
  = String.eqb (PairedUser.userId user) userId.
Proof.
  apply eq_true_iff_eq. rewrite entryFor_newChat. symmetry.
  apply String.eqb_eq.
Qed.

Lemma missing_with_id up chats pairedUsers userId :
  existingChat (UserProfile.userId up) userId chats = None ->
  usersWithId userId (missingUsers up chats pairedUsers)
  = usersWithId userId pairedUsers.
Proof.
  intros Hnone. unfold usersWithId, missingUsers.
  induction pairedUsers as [|u l IH]; simpl; [done|].
  destruct (String.eqb_spec (PairedUser.userId u) userId) as [Heq|Hne].
  - rewrite Heq, Hnone. simpl. rewrite <- Heq at 1.
    rewrite String.eqb_refl. by rewrite IH.
  - destruct (existingChat _ (PairedUser.userId u) chats); simpl; [done|].
    destruct (String.eqb_spec (PairedUser.userId u) userId); [done|].
    exact IH.
Qed.

(** X3. Paired users are not merged: when no input conversation holds
    both the local user and a given id, the appended entries for that
    pair are the placeholders of all the paired users carrying the id,
    one each and in their order (two for an id listed twice); when one
    does, there is none. *)
Theorem placeholders_per_listed_user
    (up : UserProfile.t) (chats : list Chat.t)
    (pairedUsers : list PairedUser.t) (userId : string) :
  List.filter (entryFor (UserProfile.userId up) userId)
    (addedEntries chats (createCombinedChatList (Some up) chats pairedUsers))
  = match existingChat (UserProfile.userId up) userId chats with
    | None => map (newChat up) (usersWithId userId pairedUsers)
    | Some _ => []
    end.
Proof.
  rewrite addedEntries_eq, List.filter_map_swap.
  rewrite (List.filter_ext _ (fun user => String.eqb (PairedUser.userId user)
                                                    userId))
    by (intros u; apply entryFor_newChat_eqb).
  fold (usersWithId userId (missingUsers up chats pairedUsers)).
  destruct (existingChat _ userId chats) as [c|] eqn:Hex.
  - unfold usersWithId.
    rewrite (filter_none _ (missingUsers up chats pairedUsers)); [done|].
    intros u Hu. apply missingUsers_In in Hu as [_ Hnone].
    destruct (String.eqb_spec (PairedUser.userId u) userId); [|done].
    congruence.
  - by rewrite missing_with_id.
Qed.

Lemma sorted_pair_cases a b :
  (Js.sort [a; b] = [a; b] /\ String.leb a b = true)
  \/ (Js.sort [a; b] = [b; a] /\ String.leb b a = true).
Proof.
  rewrite sort_pair. destruct (String.leb a b) eqn:Hab; [by left|right].
  split; [done|]. destruct (String.leb_total a b); congruence.
Qed.

Lemma newChat_details_lookup up user id :
  is_Some (Chat.participantDetails (newChat up user) !! id)
  <-> id = UserProfile.userId up \/ id = PairedUser.userId user.
Proof.
  simpl. rewrite lookup_insert_is_Some, lookup_insert_is_Some, lookup_empty.
  split.
  - intros [?|[_ [?|[_ [? ?]]]]]; [by right|by left|done].
  - intros [->| ->].
    + destruct (decide (PairedUser.userId user = UserProfile.userId up));
        [by left|right; split; [done|by left]].
    + by left.
Qed.

(** X4. Every entry the reconciler appends is a well-formed
    conversation record: two participants in ascending order, the chatId
    made of them around "_", and stored details for exactly the ids
    among its participants. *)
Theorem placeholders_wellformed
    (up : UserProfile.t) (chats : list Chat.t)
    (pairedUsers : list PairedUser.t) :
  Forall
    (fun p =>
       (exists a b,
           Chat.participants p = [a; b]
           /\ String.leb a b = true
           /\ Chat.chatId p = a +:+ "_" +:+ b)
       /\ (forall id,
              In id (Chat.participants p)
              <-> is_Some (Chat.participantDetails p !! id)))
    (addedEntries chats (createCombinedChatList (Some up) chats pairedUsers)).
Proof.
  rewrite addedEntries_eq. apply Forall_forall. intros p Hp.
  apply list_elem_of_In, in_map_iff in Hp as (user & <- & _). split.
  - unfold newChat, sortedParticipantIds. cbn [Chat.participants Chat.chatId].
    destruct (sorted_pair_cases (UserProfile.userId up)
                                (PairedUser.userId user)) as [[-> ?]|[-> ?]];
      eauto.
  - intros id. rewrite newChat_details_lookup, newChat_participants.
    split.
    + intros Hin. apply (Permutation_in _ (sort_perm _)) in Hin.
      destruct Hin as [<-|[<-|[]]]; auto.
    + intros Hid. apply (Permutation_in _ (Permutation_sym (sort_perm _))).
      destruct Hid as [->| ->]; simpl; auto.
Qed.

(** ** The other participant and the name shown *)

(** X5. In a conversation of two distinct participants each one sees the
    other as the other participant, whatever the order of the array. *)
Theorem otherParticipantId_two (c : Chat.t) (a b : string) :
  Chat.participants c = [a; b] -> a <> b ->
  otherParticipantId a c = Some b /\ otherParticipantId b c = Some a.
Proof.
  intros Hp Hab. unfold otherParticipantId. rewrite Hp. simpl.
  rewrite !String.eqb_refl. simpl.
  destruct (String.eqb_spec a b); [done|].
  destruct (String.eqb_spec b a); [congruence|done].
Qed.

Lemma otherParticipantId_two_witness :
  Chat.participants Sample.robertChat = ["me"; "u1"]
  /\ "me" <> "u1"
  /\ otherParticipantId "me" Sample.robertChat = Some "u1"
  /\ otherParticipantId "u1" Sample.robertChat = Some "me".
Proof.
  assert (Chat.participants Sample.robertChat = ["me"; "u1"]) as Hp
    by reflexivity.
  assert ("me" <> "u1") as Hne by discriminate.
  split; [exact Hp|]. split; [exact Hne|].
  exact (otherParticipantId_two Sample.robertChat "me" "u1" Hp Hne).
Defined.

Lemma find_user_unique pairedUsers user :
  NoDup (map PairedUser.userId pairedUsers) -> In user pairedUsers ->
  List.find (fun u => String.eqb (PairedUser.userId u)
                                 (PairedUser.userId user)) pairedUsers
  = Some user.
Proof.
  induction pairedUsers as [|u l IH]; simpl; [done|].
  intros Hnd Hin. apply NoDup_cons in Hnd as [Hu Hnd].
  destruct Hin as [->|Hin]; [by rewrite String.eqb_refl|].
  destruct (String.eqb_spec (PairedUser.userId u) (PairedUser.userId user))
    as [Heq|_]; [|by apply IH].
  exfalso. apply Hu. rewrite Heq. by apply list_elem_of_In, in_map.
Qed.

Lemma find_user_absent pairedUsers otherId :
  Forall (fun u => PairedUser.userId u <> otherId) pairedUsers ->
  List.find (fun u => String.eqb (PairedUser.userId u) otherId) pairedUsers
  = None.
Proof.
  induction 1 as [|u l Hu _ IH]; simpl; [done|].
  by destruct (String.eqb_spec (PairedUser.userId u) otherId).
Qed.

Lemma truthy_ne s : Js.truthy s = true <-> s <> EmptyString.
Proof. by destruct s. Qed.

(** X6. The name of a row, for a paired user listed once: the nickname
    when it is set and not empty; otherwise the reported name when that
    is not empty; otherwise the name stored in the conversation. *)
Theorem resolveDisplayName_precedence
    (pairedUsers : list PairedUser.t) (user : PairedUser.t)
    (stored : Details.t) :
  NoDup (map PairedUser.userId pairedUsers) -> In user pairedUsers ->
  let name := resolveDisplayName pairedUsers (PairedUser.userId user) stored in
  (forall nick, PairedUser.localDisplayName user = Some nick ->
                nick <> EmptyString -> name = nick)
  /\ (PairedUser.localDisplayName user = None
      \/ PairedUser.localDisplayName user = Some EmptyString ->
      (PairedUser.displayName user <> EmptyString ->
       name = PairedUser.displayName user)
      /\ (PairedUser.displayName user = EmptyString ->
          name = Details.displayName stored)).
Proof.
  intros Hnd Hin name. subst name. unfold resolveDisplayName.
  rewrite (find_user_unique _ _ Hnd Hin). simpl. split.
  - intros nick -> Hne. simpl. by rewrite (proj2 (truthy_ne nick) Hne).
  - intros Hnick.
    assert (forall b, Js.orElse (PairedUser.localDisplayName user) b = b)
      as -> by (intros b; by destruct Hnick as [-> | ->]).
    split.
    + intros Hne. by rewrite (proj2 (truthy_ne _) Hne).
    + by intros ->.
Qed.

Lemma resolveDisplayName_precedence_witness :
  NoDup (map PairedUser.userId [Sample.alice; Sample.robert])
  /\ In Sample.robert [Sample.alice; Sample.robert]
  /\ resolveDisplayName [Sample.alice; Sample.robert] "u1"
       (Details.mk "Robert" None) = "Bob".
Proof.
  assert (NoDup (map PairedUser.userId [Sample.alice; Sample.robert]))
    as Hnd by compute_done.
  assert (In Sample.robert [Sample.alice; Sample.robert]) as Hin
    by (right; by left).
  split; [exact Hnd|]. split; [exact Hin|].
  apply (proj1 (resolveDisplayName_precedence _ Sample.robert
                  (Details.mk "Robert" None) Hnd Hin) "Bob");
    [reflexivity|discriminate].
Defined.

(** X7. For an id that no paired user carries, the row shows the name
    stored in the conversation. *)
Theorem resolveDisplayName_unpaired
    (pairedUsers : list PairedUser.t) (otherId : string)
    (stored : Details.t) :
  Forall (fun u => PairedUser.userId u <> otherId) pairedUsers ->
  resolveDisplayName pairedUsers otherId stored = Details.displayName stored.
Proof.
  intros Hnone. unfold resolveDisplayName.
  by rewrite (find_user_absent _ _ Hnone).
Qed.

Lemma resolveDisplayName_unpaired_witness :
  Forall (fun u => PairedUser.userId u <> "zed") [Sample.alice; Sample.robert]
  /\ resolveDisplayName [Sample.alice; Sample.robert] "zed"
       (Details.mk "Zed" None) = "Zed".
Proof.
  assert (Forall (fun u => PairedUser.userId u <> "zed")
                 [Sample.alice; Sample.robert]) as Hnone
    by (repeat constructor; discriminate).
  split; [exact Hnone|].
  exact (resolveDisplayName_unpaired _ "zed" (Details.mk "Zed" None) Hnone).
Defined.

Lemma newChat_other up user :
  PairedUser.userId user <> UserProfile.userId up ->
  otherParticipantId (UserProfile.userId up) (newChat up user)
  = Some (PairedUser.userId user).
Proof.
  intros Hne. unfold otherParticipantId. rewrite newChat_participants.
  destruct (sorted_pair_cases (UserProfile.userId up)
                              (PairedUser.userId user)) as [[-> _]|[-> _]];
    simpl.
  - rewrite String.eqb_refl. simpl.
    by destruct (String.eqb_spec (PairedUser.userId user)
                                 (UserProfile.userId up)).
  - by destruct (String.eqb_spec (PairedUser.userId user)
                                 (UserProfile.userId up)).
Qed.

Lemma orElse_same a b : Js.orElse a (Js.orElse (Some b) (Js.orElse a b))
                        = Js.orElse a b.
Proof.
  destruct a as [s|]; simpl.
  - destruct (Js.truthy s); [done|]. by destruct (Js.truthy b).
  - by destruct (Js.truthy b).
Qed.

(** X8. The row of a placeholder, for a paired user listed once whose id
    is not empty and not the local user's: it is keyed by the
    placeholder's chatId, named by the nickname or else the reported
    name, dashed, without badge, highlight or time, and invites to start
    a conversation; the filter matches the query against that same
    name. *)
Theorem placeholder_row
    (up : UserProfile.t) (pairedUsers : list PairedUser.t)
    (user : PairedUser.t) (searchQuery : string) :
  NoDup (map PairedUser.userId pairedUsers) -> In user pairedUsers ->
  PairedUser.userId user <> UserProfile.userId up ->
  PairedUser.userId user <> EmptyString ->
  let name := Js.orElse (PairedUser.localDisplayName user)
                        (PairedUser.displayName user) in
  renderChat (Some up) pairedUsers (newChat up user)
  = Some {| rowKey := Chat.chatId (newChat up user);
            rowOther := PairedUser.userId user;
            rowName := name;
            rowAvatar := PairedUser.avatar user;
            rowHighlighted := false;
            rowDashed := true;
            rowBadge := None;
            rowTime := None;
            rowSubtitle := "Start a conversation" |}
  /\ chatMatches (Some up) searchQuery (newChat up user)
     = Js.includes (Js.toLowerCase name) (Js.toLowerCase searchQuery).
Proof.
  intros Hnd Hin Hself Hempty name.
  pose proof (newChat_other up user Hself) as Hother.
  assert (Chat.participantDetails (newChat up user) !! PairedUser.userId user
          = Some (Details.mk name (PairedUser.avatar user))) as Hd
    by apply lookup_insert_eq.
  unfold renderChat, chatMatches. rewrite Hother.
  rewrite (proj2 (truthy_ne _) Hempty), Hd. split; [|done].
  do 2 f_equal. unfold resolveDisplayName.
  rewrite (find_user_unique _ _ Hnd Hin). apply orElse_same.
Qed.

Lemma placeholder_row_witness :
  NoDup (map PairedUser.userId [Sample.robert; Sample.alice])
  /\ In Sample.robert [Sample.robert; Sample.alice]
  /\ (rowName <$> renderChat (Some Sample.me) [Sample.robert; Sample.alice]
                    (newChat Sample.me Sample.robert)) = Some "Bob"
  /\ chatMatches (Some Sample.me) "bob" (newChat Sample.me Sample.robert)
     = true.
Proof.
  assert (NoDup (map PairedUser.userId [Sample.robert; Sample.alice]))
    as Hnd by compute_done.
  assert (In Sample.robert [Sample.robert; Sample.alice]) as Hin by (by left).
  assert (PairedUser.userId Sample.robert <> UserProfile.userId Sample.me)
    as Hself by discriminate.
  assert (PairedUser.userId Sample.robert <> EmptyString) as Hne
    by discriminate.
  split; [exact Hnd|]. split; [exact Hin|].
  destruct (placeholder_row Sample.me _ Sample.robert "bob"
              Hnd Hin Hself Hne) as [Hrow Hmatch].
  split; [by rewrite Hrow|by rewrite Hmatch].
Defined.

(** ** The query as a substring *)

Lemma append_cons x (a b : string) : String x a +:+ b = String x (a +:+ b).
Proof. reflexivity. Qed.

Lemma append_assoc (a b c : string) : (a +:+ b) +:+ c = a +:+ b +:+ c.
Proof.
  induction a as [|x a IH]; [done|]. by rewrite !append_cons, IH.
Qed.

Lemma startsWith_spec s q :
  Js.startsWith s q = true <-> exists post, s = q +:+ post.
Proof.
  revert s. induction q as [|b q IH]; intros s.
  - destruct s; simpl; split; eauto.
  - destruct s as [|a s]; simpl.
    + split; [done|]. by intros [post ?].
    + rewrite andb_true_iff, IH. split.
      * intros [Hab [post ->]]. apply Ascii.eqb_eq in Hab as ->. eauto.
      * intros [post Heq]. rewrite append_cons in Heq.
        injection Heq as -> ->.
        split; [apply Ascii.eqb_refl|eauto].
Qed.

Lemma includes_nil q : Js.includes EmptyString q = Js.startsWith EmptyString q.
Proof. unfold Js.includes. apply orb_false_r. Qed.

Lemma includes_cons a s q :
  Js.includes (String a s) q
  = Js.startsWith (String a s) q || Js.includes s q.
Proof. reflexivity. Qed.

Lemma includes_spec s q :
  Js.includes s q = true <-> exists pre post, s = pre +:+ q +:+ post.
Proof.
  split.
  - induction s as [|a s IH].
    + rewrite includes_nil. intros Hstart.
      apply startsWith_spec in Hstart as [post ->]. by exists EmptyString, post.
    + rewrite includes_cons, orb_true_iff. intros [Hstart|Hrest].
      * apply startsWith_spec in Hstart as [post ->].
        by exists EmptyString, post.
      * destruct (IH Hrest) as (pre & post & ->).
        by exists (String a pre), post.
  - intros (pre & post & ->). induction pre as [|a pre IH].
    + assert (Js.startsWith (q +:+ post) q = true) as Hstart
        by (apply startsWith_spec; eauto).
      change (EmptyString +:+ q +:+ post) with (q +:+ post).
      destruct (q +:+ post).
      * by rewrite includes_nil.
      * by rewrite includes_cons, Hstart.
    + rewrite append_cons, includes_cons, IH. apply orb_true_r.
Qed.

Lemma includes_inside s longer q :
  (exists before after, longer = before +:+ q +:+ after) ->
  Js.includes s longer = true -> Js.includes s q = true.
Proof.
  intros (a & b & ->). rewrite !includes_spec. intros (pre & post & ->).
  exists (pre +:+ a), (b +:+ post). by rewrite !append_assoc.
Qed.

(** X9. A conversation whose other participant can be read passes the
    filter exactly when the lower-cased query occurs, as a contiguous
    piece, in the lower-cased stored name of that participant. *)
Theorem chatMatches_substring
    (up : UserProfile.t) (searchQuery : string) (c : Chat.t)
    (other : string) (d : Details.t) :
  otherParticipantId (UserProfile.userId up) c = Some other ->
  other <> EmptyString ->
  Chat.participantDetails c !! other = Some d ->
  chatMatches (Some up) searchQuery c = true
  <-> exists pre post,
        Js.toLowerCase (Details.displayName d)
        = pre +:+ Js.toLowerCase searchQuery +:+ post.
Proof.
  intros Hother Hne Hd.
  rewrite (chatMatches_stored_name up searchQuery c other d Hother Hne Hd).
  apply includes_spec.
Qed.

Lemma chatMatches_substring_witness :
  otherParticipantId (UserProfile.userId Sample.me) Sample.robertChat
  = Some "u1"
  /\ chatMatches (Some Sample.me) "BER" Sample.robertChat = true.
Proof.
  assert (otherParticipantId (UserProfile.userId Sample.me) Sample.robertChat
          = Some "u1") as Hother by reflexivity.
  assert ("u1" <> EmptyString) as Hne by discriminate.
  assert (Chat.participantDetails Sample.robertChat !! "u1"
          = Some (Details.mk "Robert" None)) as Hd by reflexivity.
  split; [exact Hother|].
  apply (proj2 (chatMatches_substring Sample.me "BER" Sample.robertChat
                  "u1" (Details.mk "Robert" None) Hother Hne Hd)).
  by exists "ro", "t".
Defined.

Lemma chatMatches_inside userProfile query longer c :
  (exists before after,
      Js.toLowerCase longer = before +:+ Js.toLowerCase query +:+ after) ->
  chatMatches userProfile longer c = true ->
  chatMatches userProfile query c = true.
Proof.
  intros Hinside. unfold chatMatches. destruct userProfile as [up|]; [|done].
  destruct (otherParticipantId _ c) as [other|]; [|done].
  destruct (Js.truthy other); [|done].
  destruct (Chat.participantDetails c !! other); [|done].
  by apply includes_inside.
Qed.

Lemma filter_sublist_impl {A} (p q : A -> bool) (l : list A) :
  (forall x, p x = true -> q x = true) ->
  List.filter p l `sublist_of` List.filter q l.
Proof.
  intros Hpq. induction l as [|x l IH]; simpl; [constructor|].
  destruct (p x) eqn:Hp.
  - rewrite (Hpq x Hp). by constructor.
  - destruct (q x); [by constructor|done].
Qed.

(** X10. A longer query never brings entries back: when the lower-cased
    query occurs inside the lower-cased longer query, the list filtered
    by the longer query is a subsequence of the list filtered by the
    query. *)
Theorem filteredChats_narrows
    (userProfile : option UserProfile.t) (chats : list Chat.t)
    (pairedUsers : list PairedUser.t) (query longer : string) :
  (exists before after,
      Js.toLowerCase longer = before +:+ Js.toLowerCase query +:+ after) ->
  filteredChats userProfile chats pairedUsers longer
    `sublist_of` filteredChats userProfile chats pairedUsers query.
Proof.
  intros Hinside. apply filter_sublist_impl. intros c.
  by apply chatMatches_inside.
Qed.

Lemma filteredChats_narrows_witness :
  (exists before after,
      Js.toLowerCase "oBErt" = before +:+ Js.toLowerCase "Ber" +:+ after)
  /\ filteredChats (Some Sample.me) [Sample.robertChat; Sample.zedChat]
                   [Sample.alice] "oBErt"
       `sublist_of`
     filteredChats (Some Sample.me) [Sample.robertChat; Sample.zedChat]
                   [Sample.alice] "Ber".
Proof.
  assert (exists before after,
             Js.toLowerCase "oBErt"
             = before +:+ Js.toLowerCase "Ber" +:+ after) as Hinside
    by (by exists "o", "t").
  split; [exact Hinside|].
  exact (filteredChats_narrows (Some Sample.me)
           [Sample.robertChat; Sample.zedChat] [Sample.alice]
           "Ber" "oBErt" Hinside).
Defined.

Lemma lowerUnit_idempotent c : Js.lowerUnit (Js.lowerUnit c) = Js.lowerUnit c.
Proof. destruct c as [[] [] [] [] [] [] [] []]; reflexivity. Qed.

Lemma toLowerCase_idempotent s :
  Js.toLowerCase (Js.toLowerCase s) = Js.toLowerCase s.
Proof.
  induction s as [|c s IH]; simpl; [done|].
  by rewrite lowerUnit_idempotent, IH.
Qed.

(** X11. The letter case of the query does not matter: the query and
    its lower-cased form select the same list. *)
Theorem filteredChats_query_case
    (userProfile : option UserProfile.t) (chats : list Chat.t)
    (pairedUsers : list PairedUser.t) (searchQuery : string) :
  filteredChats userProfile chats pairedUsers (Js.toLowerCase searchQuery)
  = filteredChats userProfile chats pairedUsers searchQuery.
Proof.
  unfold filteredChats. apply List.filter_ext. intros c.
  unfold chatMatches. by rewrite toLowerCase_idempotent.
Qed.

Lemma includes_empty s : Js.includes s EmptyString = true.
Proof. apply includes_spec. by exists EmptyString, s. Qed.

Lemma chatMatches_empty up c :
  hasOtherParticipant (UserProfile.userId up) c ->
  chatMatches (Some up) EmptyString c = true.
Proof.
  intros (other & Hother & Hne & [d Hd]).
  rewrite (chatMatches_stored_name up _ c other d Hother Hne Hd).
  apply includes_empty.
Qed.

Lemma newChat_hasOther up user :
  PairedUser.userId user <> UserProfile.userId up ->
  PairedUser.userId user <> EmptyString ->
  hasOtherParticipant (UserProfile.userId up) (newChat up user).
Proof.
  intros Hself Hne. exists (PairedUser.userId user).
  split; [by apply newChat_other|]. split; [done|].
  apply newChat_details_lookup. by right.
Qed.

Lemma filter_all {A} (p : A -> bool) (l : list A) :
  (forall x, In x l -> p x = true) -> List.filter p l = l.
Proof.
  induction l as [|x l IH]; simpl; intros Hall; [done|].
  rewrite (Hall x) by auto. f_equal. apply IH. auto.
Qed.

(** X12. The empty query filters nothing out when every input
    conversation has a readable other participant and every paired user
    has a non-empty id different from the local user's: the filtered
    list is the whole combined list. *)
Theorem filteredChats_empty_query
    (up : UserProfile.t) (chats : list Chat.t)
    (pairedUsers : list PairedUser.t) :
  Forall (hasOtherParticipant (UserProfile.userId up)) chats ->
  Forall (fun u => PairedUser.userId u <> UserProfile.userId up
                   /\ PairedUser.userId u <> EmptyString) pairedUsers ->
  filteredChats (Some up) chats pairedUsers EmptyString
  = createCombinedChatList (Some up) chats pairedUsers.
Proof.
  intros Hchats Husers. unfold filteredChats. apply filter_all.
  intros c Hc. apply chatMatches_empty.
  rewrite createCombinedChatList_app in Hc.
  apply in_app_or in Hc as [Hc|Hc].
  - rewrite Forall_forall in Hchats. by apply Hchats, list_elem_of_In.
  - apply in_map_iff in Hc as (u & <- & Hu).
    apply missingUsers_In in Hu as [Hu _].
    rewrite Forall_forall in Husers.
    destruct (Husers u) as [? ?]; [by apply list_elem_of_In|].
    by apply newChat_hasOther.
Qed.

Lemma filteredChats_empty_query_witness :
  Forall (hasOtherParticipant (UserProfile.userId Sample.me))
         [Sample.robertChat]
  /\ Forall (fun u => PairedUser.userId u <> UserProfile.userId Sample.me
                      /\ PairedUser.userId u <> EmptyString)
            [Sample.robert; Sample.alice]
  /\ filteredChats (Some Sample.me) [Sample.robertChat]
                   [Sample.robert; Sample.alice] EmptyString
     = [Sample.robertChat; newChat Sample.me Sample.alice].
Proof.
  assert (Forall (hasOtherParticipant (UserProfile.userId Sample.me))
                 [Sample.robertChat]) as Hchats.
  { repeat constructor. exists "u1". repeat split; [discriminate|].
    vm_compute. eauto. }
  assert (Forall (fun u => PairedUser.userId u <> UserProfile.userId Sample.me
                           /\ PairedUser.userId u <> EmptyString)
                 [Sample.robert; Sample.alice]) as Husers
    by (repeat constructor; discriminate).
  split; [exact Hchats|]. split; [exact Husers|].
  exact (filteredChats_empty_query Sample.me [Sample.robertChat]
           [Sample.robert; Sample.alice] Hchats Husers).
Defined.

(** ** The page *)

Lemma otherParticipantId_In selfId c other :
  otherParticipantId selfId c = Some other -> In other (Chat.participants c).
Proof. intros Hfind. by apply find_some in Hfind as [? _]. Qed.

Lemma chatMatchesE_complete inherited userProfile searchQuery c :
  detailsComplete c ->
  chatMatchesE inherited userProfile searchQuery c
  = Returned (chatMatches userProfile searchQuery c).
Proof.
  intros Hc. unfold chatMatchesE, chatMatches, getProperty.
  destruct userProfile as [up|]; [|done].
  destruct (otherParticipantId _ c) as [other|] eqn:Hother; [|done].
  destruct (Js.truthy other); [|done].
  destruct (Hc other (otherParticipantId_In _ _ _ Hother)) as [d ->]. done.
Qed.

Lemma orUndefined_stored a b s :
  orUndefined a (orUndefined b (Some s))
  = Some (Js.orElse a (Js.orElse b s)).
Proof.
  destruct a as [x|]; simpl.
  - destruct (Js.truthy x); [done|]. destruct b as [y|]; simpl; [|done].
    by destruct (Js.truthy y).
  - destruct b as [y|]; simpl; [|done]. by destruct (Js.truthy y).
Qed.

Lemma rowE_own pairedUsers c other d :
  timeInRange c = true ->
  rowE pairedUsers c other (Own d)
  = Returned {| rowKey := Chat.chatId c;
                rowOther := other;
                rowName := resolveDisplayName pairedUsers other d;
                rowAvatar := Details.avatar d;
                rowHighlighted := negb (Chat.unreadCount c =? 0);
                rowDashed := Chat.isPending c;
                rowBadge := unreadBadge (Chat.unreadCount c);
                rowTime := Message.timestamp <$> Chat.lastMessage c;
                rowSubtitle := subtitle c |}.
Proof.
  intros Htime. unfold rowE, rowDisplayName, resolveDisplayName.
  cbn [storedDisplayName storedAvatar]. rewrite orUndefined_stored.
  by rewrite Htime.
Qed.

Lemma renderChatE_complete inherited userProfile pairedUsers c :
  detailsComplete c -> timeInRange c = true ->
  renderChatE inherited userProfile pairedUsers c
  = Returned (renderChat userProfile pairedUsers c).
Proof.
  intros Hc Htime. unfold renderChatE, renderChat, getProperty.
  destruct userProfile as [up|]; [|done].
  destruct (otherParticipantId _ c) as [other|] eqn:Hother; [|done].
  destruct (Js.truthy other); [|done].
  destruct (Hc other (otherParticipantId_In _ _ _ Hother)) as [d ->].
  by rewrite (rowE_own _ _ _ _ Htime).
Qed.

Lemma filterE_total {A} (p : A -> Outcome bool) (q : A -> bool) l :
  Forall (fun x => p x = Returned (q x)) l ->
  filterE p l = Returned (List.filter q l).
Proof.
  induction 1 as [|x l Hx _ IH]; simpl; [done|]. by rewrite Hx, IH.
Qed.

Lemma mapE_total {A B} (f : A -> Outcome B) (g : A -> B) l :
  Forall (fun x => f x = Returned (g x)) l ->
  mapE f l = Returned (map g l).
Proof.
  induction 1 as [|x l Hx _ IH]; simpl; [done|]. by rewrite Hx, IH.
Qed.

Lemma newChat_complete up user : detailsComplete (newChat up user).
Proof.
  intros id Hid. apply newChat_details_lookup.
  rewrite newChat_participants in Hid.
  apply (Permutation_in _ (sort_perm _)) in Hid.
  destruct Hid as [<-|[<-|[]]]; auto.
Qed.

Lemma combined_complete up chats pairedUsers :
  Forall detailsComplete chats ->
  Forall (fun c => timeInRange c = true) chats ->
  Forall (fun c => detailsComplete c /\ timeInRange c = true)
         (createCombinedChatList (Some up) chats pairedUsers).
Proof.
  intros Hd Ht. rewrite createCombinedChatList_app. apply Forall_app. split.
  - rewrite Forall_forall in *. intros c Hc. split; auto.
  - apply Forall_forall. intros c Hc.
    apply list_elem_of_In, in_map_iff in Hc as (u & <- & _).
    split; [apply newChat_complete|done].
Qed.

Lemma ChatListPageE_complete inherited init userProfile chats pairedUsers
    searchQuery :
  Forall detailsComplete chats ->
  Forall (fun c => timeInRange c = true) chats ->
  ChatListPageE inherited init userProfile chats pairedUsers searchQuery
  = Returned (ChatListPage init userProfile chats pairedUsers searchQuery).
Proof.
  intros Hd Ht. unfold ChatListPageE, ChatListPage. destruct init; [|done].
  assert (Forall (fun c => detailsComplete c /\ timeInRange c = true)
                 (createCombinedChatList userProfile chats pairedUsers))
    as Hall.
  { destruct userProfile as [up|]; [by apply combined_complete|constructor]. }
  unfold filteredChatsE, filteredChats.
  rewrite (filterE_total _ (chatMatches userProfile searchQuery)).
  2:{ eapply Forall_impl; [exact Hall|]. intros c [? _].
      by apply chatMatchesE_complete. }
  assert (Forall (fun c => detailsComplete c /\ timeInRange c = true)
                 (List.filter (chatMatches userProfile searchQuery)
                    (createCombinedChatList userProfile chats pairedUsers)))
    as Hshown.
  { rewrite Forall_forall in *. intros c Hc. apply Hall.
    by apply list_elem_of_In, filter_In in Hc as [?%list_elem_of_In _]. }
  destruct (List.filter _ _) as [|c l]; [done|].
  rewrite (mapE_total _ (renderChat userProfile pairedUsers)); [done|].
  eapply Forall_impl; [exact Hshown|]. intros x [? ?].
  by apply renderChatE_complete.
Qed.

Lemma filterE_Forall {A} (p : A -> Outcome bool) (l shown : list A) :
  filterE p l = Returned shown ->
  Forall (fun x => p x = Returned true) shown.
Proof.
  intros Hret. apply Forall_forall. intros x Hx.
  by apply list_elem_of_In, (filterE_In p l shown x Hret) in Hx as [_ ?].
Qed.

Lemma renderChatE_matched inherited userProfile pairedUsers searchQuery c r :
  chatMatchesE inherited userProfile searchQuery c = Returned true ->
  renderChatE inherited userProfile pairedUsers c = Returned r ->
  exists row, r = Some row /\ rowKey row = Chat.chatId c.
Proof.
  unfold chatMatchesE, renderChatE. destruct userProfile as [up|]; [|done].
  destruct (otherParticipantId _ c) as [other|]; [|done].
  destruct (Js.truthy other); [|done].
  destruct (getProperty inherited _ other) as [d| |]; [|done..].
  intros _. unfold rowE.
  destruct (rowDisplayName pairedUsers other (Own d)); [|done].
  destruct (timeInRange c); [|done]. intros [= <-]. eauto.
Qed.

Lemma mapE_rows inherited userProfile pairedUsers searchQuery l rows :
  Forall (fun c => chatMatchesE inherited userProfile searchQuery c
                   = Returned true) l ->
  mapE (renderChatE inherited userProfile pairedUsers) l = Returned rows ->
  Forall2 (fun c row =>
             renderChatE inherited userProfile pairedUsers c
             = Returned (Some row)
             /\ rowKey row = Chat.chatId c)
          l (omap id rows).
Proof.
  intros Hall. revert rows.
  induction Hall as [|c l Hc _ IH]; simpl; intros rows Hrows.
  - injection Hrows as <-. constructor.
  - destruct (renderChatE inherited userProfile pairedUsers c) as [r|e]
      eqn:Hr; [|done].
    destruct (mapE _ l) as [rest|e]; [|done]. injection Hrows as <-.
    destruct (renderChatE_matched _ _ _ _ _ _ Hc Hr) as (row & -> & Hkey).
    simpl. constructor; [done|]. by apply IH.
Qed.

(** X13. Before initialization the page is the spinner and nothing else
    is evaluated. Once initialized, whenever the page renders without an
    exception, the filter has returned a list, the page is the empty
    state exactly when that list is empty, and otherwise it shows one
    row per filtered entry, in order, none of them null, each keyed by
    the chatId of its entry. The page does render, with the rows of
    [ChatListPage], when every input conversation has stored details for
    each of its participants and a last-message time in the range of
    dates. *)
Theorem ChatListPage_rows
    (inherited : string -> bool) (userProfile : option UserProfile.t)
    (chats : list Chat.t) (pairedUsers : list PairedUser.t)
    (searchQuery : string) :
  ChatListPageE inherited false userProfile chats pairedUsers searchQuery
  = Returned Loading
  /\ (forall view,
        ChatListPageE inherited true userProfile chats pairedUsers
                      searchQuery = Returned view ->
        exists shown,
          filteredChatsE inherited userProfile chats pairedUsers searchQuery
          = Returned shown
          /\ (view = NoChatsYet <-> shown = [])
          /\ Forall2 (fun c row =>
                        renderChatE inherited userProfile pairedUsers c
                        = Returned (Some row)
                        /\ rowKey row = Chat.chatId c)
                     shown (renderedRows view))
  /\ (Forall detailsComplete chats ->
      Forall (fun c => timeInRange c = true) chats ->
      ChatListPageE inherited true userProfile chats pairedUsers searchQuery
      = Returned (ChatListPage true userProfile chats pairedUsers
                               searchQuery)).
Proof.
  split; [done|]. split; [|apply ChatListPageE_complete].
  intros view. unfold ChatListPageE.
  destruct (filteredChatsE inherited userProfile chats pairedUsers
                           searchQuery) as [shown|e] eqn:Hshown; [|done].
  pose proof (filterE_Forall _ _ _ Hshown) as Hall.
  destruct shown as [|c l].
  - intros [= <-]. exists []. repeat split. constructor.
  - destruct (mapE _ (c :: l)) as [rows|e] eqn:Hrows; [|done].
    intros [= <-]. exists (c :: l). split; [done|]. split; [by split|].
    exact (mapE_rows _ _ _ _ _ _ Hall Hrows).
Qed.

(** The two exceptions of the page, on the sample data: an other
    participant named like a member of [Object.prototype] and without
    stored details, and a last message dated outside the range of
    dates. *)
Example page_throws_on_inherited_key :
  chatMatches (Some Sample.me) "" Sample.constructorChat = false
  /\ ChatListPageE standardInherited true (Some Sample.me)
                   [Sample.constructorChat] [] ""
     = Thrown TypeError.
Proof. vm_compute. split; reflexivity. Qed.

Example page_renders_sample :
  ChatListPageE standardInherited true (Some Sample.me)
                [Sample.robertChat] [Sample.robert; Sample.alice] ""
  = Returned (ChatListPage true (Some Sample.me) [Sample.robertChat]
                           [Sample.robert; Sample.alice] "").
Proof. vm_compute. reflexivity. Qed.

Example page_throws_on_late_time :
  ChatListPageE standardInherited true (Some Sample.me)
                [Sample.lateChat] [] ""
  = Thrown RangeError.
Proof. vm_compute. reflexivity. Qed.

(** ** Deleted messages *)

Lemma redactDeleted_no_message c :
  Chat.lastMessage c = None -> redactDeleted c = c.
Proof. destruct c; simpl. by intros ->. Qed.

Lemma existingChat_redact selfId userId chats :
  existingChat selfId userId (map redactDeleted chats)
  = redactDeleted <$> existingChat selfId userId chats.
Proof.
  unfold existingChat. induction chats as [|c l IH]; simpl; [done|].
  destruct (Js.arrIncludes (Chat.participants c) userId
            && Js.arrIncludes (Chat.participants c) selfId); [done|exact IH].
Qed.

Lemma missingUsers_redact up chats pairedUsers :
  missingUsers up (map redactDeleted chats) pairedUsers
  = missingUsers up chats pairedUsers.
Proof.
  unfold missingUsers. apply List.filter_ext. intros u.
  rewrite existingChat_redact. by destruct (existingChat _ _ chats).
Qed.

Lemma createCombinedChatList_redact userProfile chats pairedUsers :
  createCombinedChatList userProfile (map redactDeleted chats) pairedUsers
  = map redactDeleted (createCombinedChatList userProfile chats pairedUsers).
Proof.
  destruct userProfile as [up|]; [|done].
  rewrite !createCombinedChatList_app, missingUsers_redact, List.map_app.
  f_equal. rewrite List.map_map. apply List.map_ext.
  intros u. symmetry. by apply redactDeleted_no_message.
Qed.

Lemma chatMatches_redact userProfile searchQuery c :
  chatMatches userProfile searchQuery (redactDeleted c)
  = chatMatches userProfile searchQuery c.
Proof. reflexivity. Qed.

Lemma renderChat_redact userProfile pairedUsers c :
  renderChat userProfile pairedUsers (redactDeleted c)
  = renderChat userProfile pairedUsers c.
Proof.
  unfold renderChat. destruct userProfile as [up|]; [|done].
  change (otherParticipantId (UserProfile.userId up) (redactDeleted c))
    with (otherParticipantId (UserProfile.userId up) c).
  destruct (otherParticipantId _ c) as [other|]; [|done].
  destruct (Js.truthy other); [|done].
  change (Chat.participantDetails (redactDeleted c))
    with (Chat.participantDetails c).
  destruct (Chat.participantDetails c !! other); [|done].
  do 2 f_equal.
  - simpl. by destruct (Chat.lastMessage c) as [[? ? []]|].
  - unfold subtitle. simpl. destruct (Chat.isPending c); [done|].
    by destruct (Chat.lastMessage c) as [[? ? []]|].
Qed.

Lemma ChatListPage_redact init userProfile chats pairedUsers searchQuery :
  ChatListPage init userProfile (map redactDeleted chats) pairedUsers
               searchQuery
  = ChatListPage init userProfile chats pairedUsers searchQuery.
Proof.
  unfold ChatListPage, filteredChats. destruct init; [|done].
  rewrite createCombinedChatList_redact, List.filter_map_swap.
  rewrite (List.filter_ext _ (chatMatches userProfile searchQuery))
    by (intros c; apply chatMatches_redact).
  destruct (List.filter _ (createCombinedChatList _ chats _)) as [|c l];
    [done|].
  simpl. rewrite renderChat_redact. do 2 f_equal.
  rewrite List.map_map. apply List.map_ext. intros x. apply renderChat_redact.
Qed.

(** X14. The text of a message deleted for everyone never reaches the
    page: two conversation lists that agree once the texts of their
    deleted last messages are blanked give the same page, for every
    profile, paired users and query. *)
Theorem deleted_text_not_shown
    (init : bool) (userProfile : option UserProfile.t)
    (chats1 chats2 : list Chat.t) (pairedUsers : list PairedUser.t)
    (searchQuery : string) :
  map redactDeleted chats1 = map redactDeleted chats2 ->
  ChatListPage init userProfile chats1 pairedUsers searchQuery
  = ChatListPage init userProfile chats2 pairedUsers searchQuery.
Proof.
  intros Heq.
  rewrite <- (ChatListPage_redact init userProfile chats1).
  rewrite <- (ChatListPage_redact init userProfile chats2).
  by rewrite Heq.
Qed.

Lemma deleted_text_not_shown_witness :
  map redactDeleted [Sample.deletedChat "secret"]
  = map redactDeleted [Sample.deletedChat "other words"]
  /\ ChatListPage true (Some Sample.me) [Sample.deletedChat "secret"]
                  [Sample.robert] EmptyString
     = ChatListPage true (Some Sample.me) [Sample.deletedChat "other words"]
                    [Sample.robert] EmptyString.
Proof.
  assert (map redactDeleted [Sample.deletedChat "secret"]
          = map redactDeleted [Sample.deletedChat "other words"]) as Heq
    by reflexivity.
  split; [exact Heq|].
  exact (deleted_text_not_shown true (Some Sample.me) _ _ [Sample.robert]
           EmptyString Heq).
Defined.

(** ** Selecting a row *)

Lemma newChat_chatId_truthy up user :
  Js.truthy (Chat.chatId (newChat up user)) = true.
Proof.
  unfold newChat, sortedParticipantIds. cbn [Chat.chatId].
  destruct (sorted_pair_cases (UserProfile.userId up)
                              (PairedUser.userId user)) as [[-> _]|[-> _]].
  - simpl. by destruct (UserProfile.userId up).
  - simpl. by destruct (PairedUser.userId user).
Qed.

(** X15. Selecting the row of a placeholder only navigates, to the
    messages page of the placeholder's chatId: that chatId is never
    empty, so the branch that calls createOrGetChat is not taken. *)
Theorem placeholder_click_navigates
    (up : UserProfile.t) (userProfile' : option UserProfile.t)
    (chats : list Chat.t) (pairedUsers : list PairedUser.t)
    (createOrGetChat : string -> string -> option string -> Chat.t)
    (p : Chat.t) (row : Row) :
  In p (addedEntries chats
          (createCombinedChatList (Some up) chats pairedUsers)) ->
  renderChat userProfile' pairedUsers p = Some row ->
  rowClick userProfile' pairedUsers createOrGetChat row
  = mkClick (Some ("/chat/messages/" +:+ Chat.chatId p)) [].
Proof.
  rewrite addedEntries_eq. intros Hp Hrow.
  apply in_map_iff in Hp as (user & <- & _).
  assert (rowKey row = Chat.chatId (newChat up user)) as Hkey.
  { unfold renderChat in Hrow. destruct userProfile' as [up'|]; [|done].
    destruct (otherParticipantId _ _); [|done].
    destruct (Js.truthy _); [|done].
    destruct (Chat.participantDetails _ !! _); [|done].
    by injection Hrow as <-. }
  unfold rowClick, handleChatClick. rewrite Hkey.
  by rewrite newChat_chatId_truthy.
Qed.

Lemma placeholder_click_navigates_witness :
  exists row,
    renderChat (Some Sample.me) [Sample.alice]
               (newChat Sample.me Sample.alice) = Some row
    /\ rowClick (Some Sample.me) [Sample.alice] Sample.createOrGetChat row
       = mkClick (Some "/chat/messages/a9_me") [].
Proof.
  assert (In (newChat Sample.me Sample.alice)
             (addedEntries []
                (createCombinedChatList (Some Sample.me) [] [Sample.alice])))
    as Hp by (by left).
  destruct (renderChat (Some Sample.me) [Sample.alice]
                       (newChat Sample.me Sample.alice)) as [row|] eqn:Hrow;
    [|vm_compute in Hrow; discriminate Hrow].
  exists row. split; [reflexivity|].
  exact (placeholder_click_navigates Sample.me (Some Sample.me) []
           [Sample.alice] Sample.createOrGetChat _ row Hp Hrow).
Defined.

Lemma orElse_fallback_truthy a b c :
  c <> EmptyString -> Js.orElse a (Js.orElse b c) <> EmptyString.
Proof.
  intros Hc. destruct a as [s|]; simpl.
  - destruct s; [|done]. simpl. destruct b as [[|]|]; simpl; done.
  - destruct b as [[|]|]; simpl; done.
Qed.

(** X16. A click without a chatId but with a participant id, for a
    loaded profile, makes exactly one createOrGetChat call for that
    participant, with a display name that is never empty, and navigates
    to the chat it returns; for a participant no paired user carries the
    name is "User " followed by the first six characters of the id and
    no avatar is passed. Without a profile the click does nothing. *)
Theorem click_creates_chat
    (up : UserProfile.t) (pairedUsers : list PairedUser.t)
    (createOrGetChat : string -> string -> option string -> Chat.t)
    (participantId : string) :
  participantId <> EmptyString ->
  (exists name avatar,
      handleChatClick (Some up) pairedUsers createOrGetChat EmptyString
                      (Some participantId)
      = mkClick
          (Some ("/chat/messages/"
                 +:+ Chat.chatId (createOrGetChat participantId name avatar)))
          [(participantId, name, avatar)]
      /\ name <> EmptyString
      /\ (Forall (fun u => PairedUser.userId u <> participantId) pairedUsers ->
          name = "User " +:+ String.substring 0 6 participantId
          /\ avatar = None))
  /\ handleChatClick None pairedUsers createOrGetChat EmptyString
                     (Some participantId)
     = mkClick None [].
Proof.
  intros Hne. split; [|done].
  unfold handleChatClick. simpl Js.truthy at 1. cbv iota.
  rewrite (proj2 (truthy_ne _) Hne).
  eexists _, _. split; [reflexivity|]. split.
  - by apply orElse_fallback_truthy.
  - intros Hnone. by rewrite (find_user_absent _ _ Hnone).
Qed.

Lemma click_creates_chat_witness :
  "0123456789abcdef" <> EmptyString
  /\ handleChatClick (Some Sample.me) [Sample.alice] Sample.createOrGetChat
                     EmptyString (Some "0123456789abcdef")
     = mkClick (Some "/chat/messages/0123456789abcdef_me")
               [("0123456789abcdef", "User 012345", None)].
Proof.
  assert ("0123456789abcdef" <> EmptyString) as Hne by discriminate.
  split; [exact Hne|].
  destruct (proj1 (click_creates_chat Sample.me [Sample.alice]
                     Sample.createOrGetChat "0123456789abcdef" Hne))
    as (name & avatar & Hclick & _ & Hname).
  destruct Hname as [-> ->]; [repeat constructor; discriminate|].
  exact Hclick.
Defined.

(** ** Chat ids and pairs *)

Lemma split_at_underscore x y x' y' :
  noUnderscore x = true -> noUnderscore x' = true ->
  x +:+ "_" +:+ y = x' +:+ "_" +:+ y' -> x = x' /\ y = y'.
Proof.
  revert x'. induction x as [|c x IH]; intros [|c' x'] Hx Hx' Heq.
  - change (String "_" y = String "_" y') in Heq. by injection Heq as ->.
  - change (String "_" y = String c' (x' +:+ "_" +:+ y')) in Heq.
    injection Heq as <- _. by simpl in Hx'.
  - change (String c (x +:+ "_" +:+ y) = String "_" y') in Heq.
    injection Heq as -> _. by simpl in Hx.
  - rewrite !append_cons in Heq. injection Heq as -> Heq.
    simpl in Hx, Hx'. apply andb_true_iff in Hx as [_ Hx].
    apply andb_true_iff in Hx' as [_ Hx'].
    destruct (IH x' Hx Hx' Heq) as [-> ->]. done.
Qed.

(** X17. When the ids do not contain "_", the synthesized chatId
    determines the pair: two pairs with the same chatId have the same
    sorted participants. *)
Theorem chatId_determines_pair (a b c d : string) :
  noUnderscore a = true -> noUnderscore b = true ->
  noUnderscore c = true -> noUnderscore d = true ->
  Js.join "_" (sortedParticipantIds a b)
  = Js.join "_" (sortedParticipantIds c d) ->
  sortedParticipantIds a b = sortedParticipantIds c d.
Proof.
  intros Ha Hb Hc Hd. unfold sortedParticipantIds.
  destruct (sorted_pair_cases a b) as [[-> _]|[-> _]];
    destruct (sorted_pair_cases c d) as [[-> _]|[-> _]];
    simpl; intros Heq;
    apply split_at_underscore in Heq as [-> ->]; done.
Qed.

Lemma chatId_determines_pair_witness :
  sortedParticipantIds "me" "u1" = sortedParticipantIds "u1" "me".
Proof.
  apply chatId_determines_pair; reflexivity.
Defined.
